(** * Trajectory engine of the mc-raptor trajectory tool

    A shallow embedding of the numeric core of the tool: the Lissajous
    model ([trajectories/lissajous.js]), the Langevin model
    ([trajectories/langevin.js]) and the registry with its statistics pass
    ([trajectories/index.js]).

    Numbers.  A JavaScript number is idealised as a real number: rounding,
    NaN and the infinities are not represented, and a division by zero has
    the value the reals of the library give it.  The statements about
    [evaluate], [getPlotTime] and [simulate] keep the divisors ([duration],
    [ramp_duration] where it is used, the divisor of the frequencies, [dt])
    away from zero; the statement about [hasSingularity] compares the code
    with the same quotient and does not depend on its value.  The summary
    of an empty column in [computeStats], where the code would build NaN
    and the infinities out of nothing, is an outcome of its own,
    [NonFinite], and is shown never to occur.

    Randomness.  [Math.random()] is a sequence of draws read through a
    cursor; the rejection loop of [normalRandom] carries fuel. *)

From Stdlib Require Import Reals Lra Lia List String ZArith Bool Sorted.
From Equations Require Import Equations.
Import ListNotations.
Local Open Scope R_scope.

(** ** The fragment of JavaScript the engine uses *)

Module JS.

(** [x < y], [x > y], [x <= y] and [x === y] on numbers. *)
Definition ltb (x y : R) : bool := if Rlt_dec x y then true else false.
Definition gtb (x y : R) : bool := ltb y x.
Definition leb (x y : R) : bool := if Rle_dec x y then true else false.
Definition eqb (x y : R) : bool := if Req_dec_T x y then true else false.

(** Truncation toward zero, and the remainder [a % b], which has the sign
    of the dividend. *)
Definition trunc (x : R) : Z := if Rle_dec 0 x then Zfloor x else Zceil x.
Definition rem (a b : R) : R := a - b * IZR (trunc (a / b)).

(** [Math.hypot(x, y, z)]. *)
Definition hypot (x y z : R) : R := sqrt (x * x + y * y + z * z).

(** [Math.floor], as an integer. *)
Definition floor (x : R) : Z := Zfloor x.

End JS.

(** What a call does: it returns a value, throws, or (in the statistics
    pass only) would have to build a value that is not a real number. *)
Inductive outcome (A : Type) : Type :=
| Return (v : A)
| Throw (message : string)
| NonFinite.
Arguments Return {A} v.
Arguments Throw {A} message.
Arguments NonFinite {A}.

(** ** Samples *)

(** The object [evaluate] returns. *)
Module State.
Record State : Type := mk
  { x : R; y : R; z : R;
    vx : R; vy : R; vz : R;
    speed : R;
    ax : R; ay : R; az : R;
    accel : R }.
End State.

(** One element of a trajectory. *)
Module Sample.
Record Sample : Type := mk
  { t : R;
    x : R; y : R; z : R;
    vx : R; vy : R; vz : R;
    speed : R;
    ax : R; ay : R; az : R;
    accel : R }.
End Sample.

(** The object literal [{ t, ...state }]. *)
Definition spread (t : R) (s : State.State) : Sample.Sample :=
  Sample.mk t (State.x s) (State.y s) (State.z s)
            (State.vx s) (State.vy s) (State.vz s)
            (State.speed s)
            (State.ax s) (State.ay s) (State.az s)
            (State.accel s).

(** The sample times of a trajectory. *)
Definition times (data : list Sample.Sample) : list R := map Sample.t data.

(** ** Lissajous curve: the greatest common divisor of numbers *)

(** The default value of the third argument of [gcd]; no call passes
    another one. *)
Definition tol : R := 1e-9.

(** The loop [while (b > tol) { temp = b; b = a % b; a = temp }] ends
    because this quantity drops at every turn: twice the number of [tol]s
    in [a + b], plus one when the next turn only swaps [a] and [b]. *)
Definition gcd_measure (a b : R) : nat :=
  if Rlt_dec tol b
  then S (if Rlt_dec a 0 then 0
          else 2 * Z.to_nat (Zfloor ((a + b) / tol))
               + (if Rlt_dec a b then 1 else 0))
  else 0.

Lemma rem_nonneg (a b : R) : 0 <= a -> 0 < b -> 0 <= JS.rem a b < b.
Proof.
  intros Ha Hb. unfold JS.rem, JS.trunc.
  assert (Hq : 0 <= a / b)
    by (apply Rmult_le_pos; [lra | left; apply Rinv_0_lt_compat; lra]).
  destruct (Rle_dec 0 (a / b)) as [_ | n]; [| lra].
  pose proof (Zfloor_bound (a / b)) as [H1 H2].
  assert (Hab : a = b * (a / b)) by (field; lra).
  split.
  - apply (Rmult_le_compat_l b) in H1; lra.
  - apply (Rmult_lt_compat_l b) in H2; lra.
Qed.

Lemma rem_small (a b : R) : 0 <= a < b -> JS.rem a b = a.
Proof.
  intros [Ha Hb]. unfold JS.rem, JS.trunc.
  assert (Hq : 0 <= a / b < 1).
  { split.
    - apply Rmult_le_pos; [lra | left; apply Rinv_0_lt_compat; lra].
    - apply (Rmult_lt_reg_r b); [lra |].
      unfold Rdiv. rewrite Rmult_assoc, Rinv_l; lra. }
  destruct (Rle_dec 0 (a / b)) as [_ | n]; [| lra].
  rewrite (Zfloor_eq 0 (a / b)); simpl; lra.
Qed.

Lemma rem_large (a b : R) : 0 < b <= a -> JS.rem a b <= a - b.
Proof.
  intros [Hb Ha]. unfold JS.rem, JS.trunc.
  assert (Hq : 1 <= a / b).
  { apply (Rmult_le_reg_r b); [lra |].
    unfold Rdiv. rewrite Rmult_assoc, Rinv_l; lra. }
  destruct (Rle_dec 0 (a / b)) as [_ | n]; [| lra].
  assert (Hk : (1 <= Zfloor (a / b))%Z) by (apply Zfloor_lub; simpl; lra).
  apply IZR_le in Hk.
  apply (Rmult_le_compat_l b) in Hk; lra.
Qed.

Lemma rem_neg (a b : R) : a < 0 -> 0 < b -> JS.rem a b <= 0.
Proof.
  intros Ha Hb. unfold JS.rem, JS.trunc.
  assert (Hq : a / b < 0).
  { apply (Rmult_lt_reg_r b); [lra |].
    unfold Rdiv. rewrite Rmult_assoc, Rinv_l; lra. }
  destruct (Rle_dec 0 (a / b)) as [n | _]; [lra |].
  pose proof (Zfloor_ceil_bound (a / b)) as [_ H2].
  assert (Hab : a = b * (a / b)) by (field; lra).
  apply (Rmult_le_compat_l b) in H2; lra.
Qed.

Lemma gcd_measure_decreases (a b : R) :
  tol < b -> (gcd_measure b (JS.rem a b) < gcd_measure a b)%nat.
Proof.
  intros Hb. assert (Ht : 0 < tol) by (unfold tol; lra).
  unfold gcd_measure at 2. destruct (Rlt_dec tol b) as [_ | n]; [| lra].
  unfold gcd_measure. destruct (Rlt_dec tol (JS.rem a b)) as [Hr | _]; [| lia].
  destruct (Rlt_dec b 0) as [n | _]; [lra |].
  destruct (Rlt_dec a 0) as [Ha | Ha].
  { pose proof (rem_neg a b Ha ltac:(lra)). lra. }
  apply Rnot_lt_le in Ha.
  pose proof (rem_nonneg a b Ha ltac:(lra)) as [_ Hlt].
  destruct (Rlt_dec b (JS.rem a b)) as [n | _]; [lra |].
  destruct (Rlt_dec a b) as [Hab | Hab].
  - rewrite rem_small by lra. rewrite (Rplus_comm b a). lia.
  - apply Rnot_lt_le in Hab.
    pose proof (rem_large a b ltac:(lra)) as Hle.
    assert (H0 : (0 <= Zfloor ((b + JS.rem a b) / tol))%Z).
    { apply Zfloor_lub. simpl.
      apply Rmult_le_pos; [lra | left; apply Rinv_0_lt_compat; lra]. }
    assert (H1 : (Zfloor ((b + JS.rem a b) / tol) + 1
                  <= Zfloor ((a + b) / tol))%Z).
    { rewrite <- Zfloor_addz. apply Zfloor_le. simpl.
      apply (Rmult_le_reg_r tol); [lra |]. unfold Rdiv.
      rewrite Rmult_plus_distr_r, !Rmult_assoc, Rinv_l by lra. lra. }
    lia.
Qed.

(** [while (b > tol) { const temp = b; b = a % b; a = temp; } return a;] *)
Equations gcd_loop (a b : R) : R by wf (gcd_measure a b) lt :=
  gcd_loop a b with Rlt_dec tol b => {
    | left _ => gcd_loop b (JS.rem a b);
    | right _ => a }.
Next Obligation. apply gcd_measure_decreases; assumption. Qed.

(** [function gcd(a, b, tol = 1e-9)] *)
Definition gcd (a b : R) : R :=
  let a := Rabs a in
  let b := Rabs b in
  if JS.ltb a tol then b
  else if JS.ltb b tol then a
  else gcd_loop a b.

(** [nums.reduce((acc, n) => gcd(acc, n), 0)] *)
Definition gcdMultiple (nums : list R) : R :=
  fold_left (fun acc n => gcd acc n) nums 0.

(** ** Lissajous curve: the model *)

Module lissajous.

Record Params : Type := mkParams
  { A : R; B : R; C : R;
    a : R; b : R; c : R;
    duration : R;
    ramp_duration : R }.

Definition defaultParams : Params :=
  mkParams 0.5 1.0 0.0 2.0 1.0 1.0 10.0 3.0.

(** The three conditional [push]es of [calculateCycleDuration]. *)
Definition activeFreqs (params : Params) : list R :=
  (if JS.gtb (A params) 0 && JS.gtb (a params) 0 then [a params] else [])
  ++ (if JS.gtb (B params) 0 && JS.gtb (b params) 0 then [b params] else [])
  ++ (if JS.gtb (C params) 0 && JS.gtb (c params) 0 then [c params] else []).

Definition calculateCycleDuration (params : Params) : R :=
  let activeFreqs := activeFreqs params in
  if Nat.eqb (List.length activeFreqs) 0 then duration params
  else
    let freqGcd := gcdMultiple activeFreqs in
    if JS.ltb freqGcd 1e-9 then duration params
    else
      let cycleMultiplier := 1 / freqGcd in
      duration params * cycleMultiplier.

Definition getPlotTime (params : Params) : R :=
  if negb (JS.gtb (duration params) 0) then 0
  else
    let cycleDuration := calculateCycleDuration params in
    Rmax 0 (ramp_duration params) + cycleDuration.


Definition evaluate (time : R) (params : Params) : State.State :=
  let time_velocity :=
    if JS.gtb (ramp_duration params) 0
    then Rmin time (ramp_duration params) / ramp_duration params
    else 1 in
  let ramp_time := time_velocity * Rmin time (ramp_duration params) / 2 in
  let progress :=
    (ramp_time + Rmax 0 (time - ramp_duration params))
    * (2 * PI) / duration params in
  let d_progress := (2 * PI * time_velocity) / duration params in
  let dd_progress :=
    if JS.gtb (ramp_duration params) 0 && JS.ltb time (ramp_duration params)
    then (2 * PI) / (ramp_duration params * duration params)
    else 0 in
  let x := A params * sin (a params * progress) in
  let y := B params * sin (b params * progress) in
  let z := C params * sin (c params * progress) in
  let vx := A params * cos (a params * progress) * a params * d_progress in
  let vy := B params * cos (b params * progress) * b params * d_progress in
  let vz := C params * cos (c params * progress) * c params * d_progress in
  let speed := JS.hypot vx vy vz in
  let ax := A params * a params *
    (- a params * sin (a params * progress) * d_progress * d_progress
     + cos (a params * progress) * dd_progress) in
  let ay := B params * b params *
    (- b params * sin (b params * progress) * d_progress * d_progress
     + cos (b params * progress) * dd_progress) in
  let az := C params * c params *
    (- c params * sin (c params * progress) * d_progress * d_progress
     + cos (c params * progress) * dd_progress) in
  let accel := JS.hypot ax ay az in
  State.mk x y z vx vy vz speed ax ay az accel.

(** [Math.max(1, Math.floor(plotTime / dt))], the index of the last
    sample. *)
Definition steps (plotTime dt : R) : nat :=
  Z.to_nat (Z.max 1 (JS.floor (plotTime / dt))).

(** The inner loop [for (let i = 0; i <= steps; i++)]. *)
Definition sample_run (params : Params) (dt plotTime : R) : list Sample.Sample :=
  map (fun i : nat =>
         let t := Rmin (INR i * dt) plotTime in
         let state := evaluate t params in
         spread t state)
      (seq 0 (S (steps plotTime dt))).

Definition simulate (params : Params) (dt : R) (nSamples : nat)
  : list (list Sample.Sample) :=
  let plotTime := getPlotTime params in
  if JS.leb plotTime 0 then []
  else map (fun _ : nat => sample_run params dt plotTime) (seq 0 nSamples).

Definition hasSingularity (params : Params) : bool :=
  if JS.gtb (ramp_duration params) 0 then false
  else
    let d_progress := (2 * PI) / duration params in
    let v0x := A params * a params * d_progress in
    let v0y := B params * b params * d_progress in
    let v0z := C params * c params * d_progress in
    JS.gtb (JS.hypot v0x v0y v0z) 1e-9.

End lissajous.

(** ** Langevin dynamics *)

Module langevin.

Record Params : Type := mkParams
  { gamma : R; omega : R; sigma : R; alpha : R; duration : R }.

Definition defaultParams : Params := mkParams 0.5 1.0 0.3 0.1 20.0.

Definition getPlotTime (params : Params) : R :=
  if JS.gtb (duration params) 0 then duration params else 0.

(** A computation that calls [Math.random()]: it reads the draws from a
    cursor on and hands the cursor on; [None] means that a loop ran out of
    fuel. *)
Definition Rand (A : Type) : Type := nat -> option (A * nat).

Definition ret {A : Type} (v : A) : Rand A := fun k => Some (v, k).

Definition bind {A B : Type} (m : Rand A) (f : A -> Rand B) : Rand B :=
  fun k => match m k with
           | Some (v, k') => f v k'
           | None => None
           end.

Notation "x <- m ;; f" := (bind m (fun x => f))
  (at level 61, m at next level, right associativity).

(** A [for] loop over the indices [l] that carries the state [s]. *)
Fixpoint foldM {A S : Type} (body : A -> S -> Rand S) (l : list A) (s : S)
  : Rand S :=
  match l with
  | [] => ret s
  | i :: l' => s' <- body i s ;; foldM body l' s'
  end.

(** The arrays of three numbers, read and written by index. *)
Definition get (arr : list R) (i : nat) : R := nth i arr 0.

Fixpoint set (arr : list R) (i : nat) (v : R) : list R :=
  match arr, i with
  | [], _ => []
  | _ :: arr', O => v :: arr'
  | x :: arr', S i' => x :: set arr' i' v
  end.

(** The four arrays of one realization. *)
Record Work : Type := mkWork
  { pos_raw : list R; vel_raw : list R; pos : list R; vel : list R }.

(** The body of [for (let dim = 0; dim < 3; dim++)] after the draw
    [normalRandom()] has given [noise]. *)
Definition advance (params : Params) (dt sqrt_dt omega2 : R)
  (dim : nat) (w : Work) (noise : R) : Work :=
  let x_prev := get (pos_raw w) dim in
  let v_prev := get (vel_raw w) dim in
  let dW := sqrt_dt * noise in
  let v_next :=
    v_prev + (- gamma params * v_prev - omega2 * x_prev) * dt
    + sigma params * dW in
  let x_next := x_prev + v_next * dt in
  let pos_raw' := set (pos_raw w) dim x_next in
  let vel_raw' := set (vel_raw w) dim v_next in
  let v_smooth := alpha params * v_next + (1 - alpha params) * get (vel w) dim in
  let x_smooth := get (pos w) dim + v_smooth * dt in
  mkWork pos_raw' vel_raw' (set (pos w) dim x_smooth) (set (vel w) dim v_smooth).

(** The sample pushed at the end of a step: [vel_prev] is the copy of
    [vel] taken before the three updates that led to [w]. *)
Definition sample_of (t dt : R) (vel_prev : list R) (w : Work)
  : Sample.Sample :=
  let speed := JS.hypot (get (vel w) 0) (get (vel w) 1) (get (vel w) 2) in
  let ax := (get (vel w) 0 - get vel_prev 0) / dt in
  let ay := (get (vel w) 1 - get vel_prev 1) / dt in
  let az := (get (vel w) 2 - get vel_prev 2) / dt in
  let accel := JS.hypot ax ay az in
  Sample.mk t
    (get (pos w) 0) (get (pos w) 1) (get (pos w) 2)
    (get (vel w) 0) (get (vel w) 1) (get (vel w) 2)
    speed ax ay az accel.

Section Random.

(** [random k] is what the [k]-th call of [Math.random()] returns. *)
Variable random : nat -> R.

(** How many turns the loop of [normalRandom] may take. *)
Variable fuel : nat.

Definition Math_random : Rand R := fun k => Some (random k, S k).

(** [do { u1 = Math.random(); } while (u1 === 0);] *)
Fixpoint draw_u1 (n : nat) : Rand R :=
  match n with
  | O => fun _ => None
  | S n' => u1 <- Math_random ;; if JS.eqb u1 0 then draw_u1 n' else ret u1
  end.

Definition normalRandom : Rand R :=
  u1 <- draw_u1 fuel ;;
  u2 <- Math_random ;;
  ret (sqrt (-2 * ln u1) * cos (2 * PI * u2)).

(** The body of [for (let dim = 0; dim < 3; dim++)]: one draw, then the
    arithmetic of [advance]. *)
Definition update_dim (params : Params) (dt sqrt_dt omega2 : R)
  (dim : nat) (w : Work) : Rand Work :=
  noise <- normalRandom ;;
  ret (advance params dt sqrt_dt omega2 dim w noise).

(** The body of [for (let i = 1; i <= steps; i++)]. *)
Definition step (params : Params) (dt sqrt_dt omega2 plotTime : R)
  (i : nat) (st : Work * list Sample.Sample)
  : Rand (Work * list Sample.Sample) :=
  let w := fst st in
  let data := snd st in
  let t := Rmin (INR i * dt) plotTime in
  let vel_prev := vel w in
  w' <- foldM (update_dim params dt sqrt_dt omega2) [0; 1; 2]%nat w ;;
  ret (w', data ++ [sample_of t dt vel_prev w']).

(** [Math.max(1, Math.floor(plotTime / dt))] *)
Definition steps (plotTime dt : R) : nat :=
  Z.to_nat (Z.max 1 (JS.floor (plotTime / dt))).

(** The body of [for (let n = 0; n < nSamples; n++)], up to the [push]. *)
Definition realization (params : Params) (dt sqrt_dt omega2 plotTime : R)
  : Rand (list Sample.Sample) :=
  let pos_raw := [0; 0; 0] in
  let vel_raw := [0; 0; 0] in
  let pos := [0; 0; 0] in
  let vel := [0; 0; 0] in
  let data :=
    [Sample.mk 0 (get pos 0) (get pos 1) (get pos 2)
               (get vel 0) (get vel 1) (get vel 2)
               0 0 0 0 0] in
  st <- foldM (step params dt sqrt_dt omega2 plotTime)
              (seq 1 (steps plotTime dt))
              (mkWork pos_raw vel_raw pos vel, data) ;;
  ret (snd st).

Definition simulate (params : Params) (dt : R) (nSamples : nat)
  : Rand (list (list Sample.Sample)) :=
  let plotTime := getPlotTime params in
  if JS.leb plotTime 0 then ret []
  else
    let omega2 := omega params * omega params in
    let sqrt_dt := sqrt dt in
    foldM (fun (_ : nat) trajectories =>
             data <- realization params dt sqrt_dt omega2 plotTime ;;
             ret (trajectories ++ [data]))
          (seq 0 nSamples) [].

End Random.

(** [evaluate(time, params) { throw new Error(...) }] *)
Definition evaluate (time : R) (params : Params) : outcome State.State :=
  Throw "Langevin dynamics requires simulation, not point evaluation".

Definition hasSingularity (params : Params) : bool := false.

End langevin.

(** ** The registry *)

(** The two model objects. *)
Inductive Model : Type := Lissajous | Langevin.

(** What a property read on [trajectories] may give. *)
Inductive value : Type :=
| Null
| Undefined
| ModelObject (m : Model)
| Inherited (name : string).

(** [export const trajectories = { lissajous, langevin }]: the own
    properties of the object literal. *)
Definition trajectories : list (string * Model) :=
  [("lissajous"%string, Lissajous); ("langevin"%string, Langevin)].

(** An object literal inherits from [Object.prototype]; these are the
    names of its members (ECMAScript, "Properties of the Object Prototype
    Object"), each of them a function or, for [__proto__], the prototype
    object itself. *)
Definition Object_prototype : list string :=
  ["constructor"; "hasOwnProperty"; "isPrototypeOf"; "propertyIsEnumerable";
   "toLocaleString"; "toString"; "valueOf"; "__proto__";
   "__defineGetter__"; "__defineSetter__";
   "__lookupGetter__"; "__lookupSetter__"]%string.

Fixpoint own (props : list (string * Model)) (id : string) : option Model :=
  match props with
  | [] => None
  | (name, m) :: props' => if String.eqb name id then Some m else own props' id
  end.

(** The property read [trajectories[id]]: own properties first, then the
    prototype. *)
Definition trajectories_get (id : string) : value :=
  match own trajectories id with
  | Some m => ModelObject m
  | None =>
    if existsb (String.eqb id) Object_prototype then Inherited id
    else Undefined
  end.

(** Objects and functions are truthy, [null] and [undefined] are not. *)
Definition truthy (v : value) : bool :=
  match v with
  | Null | Undefined => false
  | ModelObject _ | Inherited _ => true
  end.

(** [return trajectories[id] || null;] *)
Definition getTrajectory (id : string) : value :=
  let v := trajectories_get id in
  if truthy v then v else Null.

(** ** The statistics pass *)

(** A record of the output: its fields in the order of the literal. *)
Definition StatRecord : Type := list (string * R).

Fixpoint field (name : string) (r : StatRecord) : option R :=
  match r with
  | [] => None
  | (k, v) :: r' => if String.eqb k name then Some v else field name r'
  end.

Definition obind {A B : Type} (m : outcome A) (f : A -> outcome B)
  : outcome B :=
  match m with
  | Return v => f v
  | Throw e => Throw e
  | NonFinite => NonFinite
  end.

(** The [push]es of a loop whose body may fail. *)
Fixpoint mapM {A B : Type} (f : A -> outcome B) (l : list A)
  : outcome (list B) :=
  match l with
  | [] => Return []
  | i :: l' =>
    obind (f i) (fun v => obind (mapM f l') (fun vs => Return (v :: vs)))
  end.

(** The record of the branch [nSamples === 1]. *)
Definition single (point : Sample.Sample) : StatRecord :=
  [("t", Sample.t point);
   ("x", Sample.x point);
   ("y", Sample.y point);
   ("speed", Sample.speed point);
   ("speedMin", Sample.speed point);
   ("speedMax", Sample.speed point);
   ("speedMean", Sample.speed point);
   ("speedStd", 0);
   ("accel", Sample.accel point);
   ("accelMin", Sample.accel point);
   ("accelMax", Sample.accel point);
   ("accelMean", Sample.accel point);
   ("accelStd", 0)]%string.

(** The loop [for (let n = 0; n < nSamples; n++)] that fills [speeds] and
    [accels] with the values of the trajectories that have an entry at
    index [i]. *)
Definition collect (trajectoryData : list (list Sample.Sample)) (i : nat)
  : list R * list R :=
  fold_left
    (fun (acc : list R * list R) (traj : list Sample.Sample) =>
       match nth_error traj i with
       | Some point =>
         (fst acc ++ [Sample.speed point], snd acc ++ [Sample.accel point])
       | None => acc
       end)
    trajectoryData ([], []).

(** Mean, minimum, maximum and standard deviation, in the order in which
    the code computes them.  With no value at all the code would get
    [0/0], [Math.min()] and [Math.max()]: NaN and the infinities. *)
Definition summary (values : list R) : outcome (R * R * R * R) :=
  match values with
  | [] => NonFinite
  | v0 :: rest =>
    let mean :=
      fold_left (fun a b => a + b) values 0 / INR (List.length values) in
    let min := fold_left Rmin rest v0 in
    let max := fold_left Rmax rest v0 in
    let variance :=
      fold_left (fun sum v => sum + (v - mean) ^ 2) values 0
      / INR (List.length values) in
    let std := sqrt variance in
    Return (mean, min, max, std)
  end.

(** The record of the branch [nSamples > 1]. *)
Definition band (t : R) (speed accel : R * R * R * R) : StatRecord :=
  let '(speedMean, speedMin, speedMax, speedStd) := speed in
  let '(accelMean, accelMin, accelMax, accelStd) := accel in
  [("t", t);
   ("speedMin", speedMin);
   ("speedMax", speedMax);
   ("speedMean", speedMean);
   ("speedStd", speedStd);
   ("speedLower", speedMean - speedStd);
   ("speedUpper", speedMean + speedStd);
   ("accelMin", accelMin);
   ("accelMax", accelMax);
   ("accelMean", accelMean);
   ("accelStd", accelStd);
   ("accelLower", accelMean - accelStd);
   ("accelUpper", accelMean + accelStd)]%string.

(** The body of [for (let i = 0; i < nSteps; i++)]. *)
Definition stats_at (trajectoryData : list (list Sample.Sample)) (i : nat)
  : outcome StatRecord :=
  match nth_error (nth 0 trajectoryData []) i with
  | None => Throw "TypeError: trajectoryData[0][i] is undefined"
  | Some point0 =>
    let t := Sample.t point0 in
    let speeds := fst (collect trajectoryData i) in
    let accels := snd (collect trajectoryData i) in
    obind (summary speeds) (fun speed =>
    obind (summary accels) (fun accel =>
    Return (band t speed accel)))
  end.

Definition computeStats (trajectoryData : list (list Sample.Sample))
  : outcome (list StatRecord) :=
  if Nat.eqb (List.length trajectoryData) 0 then Return []
  else
    let nSamples := List.length trajectoryData in
    let nSteps := List.length (nth 0 trajectoryData []) in
    if Nat.eqb nSamples 1 then Return (map single (nth 0 trajectoryData []))
    else mapM (stats_at trajectoryData) (seq 0 nSteps).

(** ** The tuner *)

(** The functions of the tuner that work on the output of the engine. *)
Module app.

(** The [id] fields of the two model objects. *)
Definition id (m : Model) : string :=
  match m with
  | Lissajous => "lissajous"
  | Langevin => "langevin"
  end.

(** [export const trajectoryList = [lissajous, langevin]] *)
Definition trajectoryList : list Model := [Lissajous; Langevin].

(** [trajectoryList.find(t => t.id === trajectoryId) || trajectoryList[0]];
    [None] is [undefined]. *)
Definition select (trajectoryId : string) : option Model :=
  match find (fun t => String.eqb (id t) trajectoryId) trajectoryList with
  | Some t => Some t
  | None => nth_error trajectoryList 0
  end.


(** The running extremes of the loop of [bounds]; [None] is the initial
    [Infinity] of a minimum and [-Infinity] of a maximum. *)
Record Extremes : Type := mkExtremes
  { xMin : option R; xMax : option R; yMin : option R; yMax : option R }.

(** [if (v < m) m = v] *)
Definition lower (v : R) (m : option R) : option R :=
  match m with
  | None => Some v
  | Some m0 => if JS.ltb v m0 then Some v else Some m0
  end.

(** [if (v > m) m = v] *)
Definition raise (v : R) (m : option R) : option R :=
  match m with
  | None => Some v
  | Some m0 => if JS.gtb v m0 then Some v else Some m0
  end.

(** The body of [for (const p of traj)]. *)
Definition visit (e : Extremes) (p : Sample.Sample) : Extremes :=
  mkExtremes (lower (Sample.x p) (xMin e)) (raise (Sample.x p) (xMax e))
             (lower (Sample.y p) (yMin e)) (raise (Sample.y p) (yMax e)).

(** The two nested loops. *)
Definition extremes (trajectoryData : list (list Sample.Sample)) : Extremes :=
  fold_left (fun e traj => fold_left visit traj e) trajectoryData
            (mkExtremes None None None None).

Record Domain : Type := mkDomain { xDomain : R * R; yDomain : R * R }.

(** The square window of the XY plot. *)
Definition bounds (trajectoryData : list (list Sample.Sample))
  : outcome Domain :=
  if Nat.eqb (List.length trajectoryData) 0
     || Nat.eqb (List.length (nth 0 trajectoryData [])) 0
  then Return (mkDomain (-1, 1) (-1, 1))
  else
    match extremes trajectoryData with
    | mkExtremes (Some xMin) (Some xMax) (Some yMin) (Some yMax) =>
      let cx := (xMin + xMax) / 2 in
      let cy := (yMin + yMax) / 2 in
      let range := Rmax (xMax - xMin) (yMax - yMin) in
      let pad := if JS.gtb range 0 then range * 0.06 else 0.1 in
      let half := range / 2 + pad in
      Return (mkDomain (cx - half, cx + half) (cy - half, cy + half))
    | _ => NonFinite
    end.

(** What the marker of the XY plot shows: the point [{ x: 0, y: 0 }] or a
    sample of the first trajectory. *)
Inductive Marker : Type :=
| Origin
| At (p : Sample.Sample).

(** The body of [for (const p of traj)] in [curPosition]. *)
Definition nearer (t : R) (best : Sample.Sample * R) (p : Sample.Sample)
  : Sample.Sample * R :=
  let diff := Rabs (Sample.t p - t) in
  if JS.ltb diff (snd best) then (p, diff) else best.

Definition curPosition (trajectoryData : list (list Sample.Sample)) (t : R)
  : Marker :=
  match trajectoryData with
  | [] => Origin
  | traj :: _ =>
    match traj with
    | [] => Origin
    | first :: _ =>
      At (fst (fold_left (nearer t) traj (first, Rabs (Sample.t first - t))))
    end
  end.

End app.

(** The 3D view ([Trajectory3D.jsx]). *)
Module Scene.

(** [p.z || 0]: zero is falsy. *)
Definition z_or_0 (z : R) : R := if JS.eqb z 0 then 0 else z.

(** The body of [for (const p of traj)] in [bounds]. *)
Definition farther (maxDist : R) (p : Sample.Sample) : R :=
  let dist :=
    sqrt (Sample.x p * Sample.x p + Sample.y p * Sample.y p
          + z_or_0 (Sample.z p) * z_or_0 (Sample.z p)) in
  if JS.gtb dist maxDist then dist else maxDist.

(** The distance of the farthest sample from the origin, and at least 1. *)
Definition bounds (trajectoryData : list (list Sample.Sample)) : R :=
  fold_left (fun maxDist traj => fold_left farther traj maxDist)
            trajectoryData 1.

End Scene.

(** The earlier tuner ([src/app.jsx]), which samples the curve itself. *)
Module legacy.

Module Eval.
Record Eval : Type := mk
  { x : R; y : R; z : R; vx : R; vy : R; vz : R; speed : R;
    progress : R; time_velocity : R }.
End Eval.

Definition evalXYZ (time : R) (params : lissajous.Params) : Eval.Eval :=
  let time_velocity :=
    if JS.gtb (lissajous.ramp_duration params) 0
    then Rmin time (lissajous.ramp_duration params)
         / lissajous.ramp_duration params
    else 1 in
  let ramp_time :=
    time_velocity * Rmin time (lissajous.ramp_duration params) / 2 in
  let progress :=
    (ramp_time + Rmax 0 (time - lissajous.ramp_duration params))
    * (2 * PI) / lissajous.duration params in
  let d_progress := (2 * PI * time_velocity) / lissajous.duration params in
  let x := lissajous.A params * sin (lissajous.a params * progress) in
  let y := lissajous.B params * sin (lissajous.b params * progress) in
  let z := lissajous.C params * sin (lissajous.c params * progress) in
  let vx := lissajous.A params * cos (lissajous.a params * progress)
            * lissajous.a params * d_progress in
  let vy := lissajous.B params * cos (lissajous.b params * progress)
            * lissajous.b params * d_progress in
  let vz := lissajous.C params * cos (lissajous.c params * progress)
            * lissajous.c params * d_progress in
  let speed := JS.hypot vx vy vz in
  Eval.mk x y z vx vy vz speed progress time_velocity.

(** The plotted horizon of the earlier tuner. *)
Definition plotTime (params : lissajous.Params) : R :=
  if negb (JS.gtb (lissajous.duration params) 0) then 0
  else Rmax 0 (lissajous.ramp_duration params) + lissajous.duration params.

(** [Math.round]: the nearest integer, halves upward. *)
Definition round (x : R) : Z := Zfloor (x + 1 / 2).

(** [Math.min(12000, Math.max(2000, Math.round(plotTime * 300)))] *)
Definition steps (plotTime : R) : nat :=
  Z.to_nat (Z.min 12000 (Z.max 2000 (round (plotTime * 300)))).

Module PlotPoint.
Record PlotPoint : Type := mk { t : R; x : R; y : R; speed : R }.
End PlotPoint.

Definition trajectory (params : lissajous.Params) : list PlotPoint.PlotPoint :=
  let plotTime := plotTime params in
  if negb (JS.gtb (lissajous.duration params) 0) || JS.leb plotTime 0 then []
  else
    let steps := steps plotTime in
    map (fun i : nat =>
           let time := (INR i / (INR steps - 1)) * plotTime in
           let e := evalXYZ time params in
           PlotPoint.mk time (Eval.x e) (Eval.y e) (Eval.speed e))
        (seq 0 steps).

End legacy.

(** ** The specification's side *)

(** The Euclidean norm of a vector of three. *)
Definition norm3 (x y z : R) : R := sqrt (x ^ 2 + y ^ 2 + z ^ 2).

(** The closed form of the Lissajous kinematics, in the words of the
    specification. *)
Module ClosedForm.
Section At.

Variable time : R.
Variable p : lissajous.Params.

Let duration := lissajous.duration p.
Let ramp_duration := lissajous.ramp_duration p.

Definition time_velocity : R :=
  if Rlt_dec 0 ramp_duration
  then Rmin time ramp_duration / ramp_duration
  else 1.

Definition ramp_time : R := time_velocity * Rmin time ramp_duration / 2.

Definition progress : R :=
  (ramp_time + Rmax 0 (time - ramp_duration)) * 2 * PI / duration.

Definition d_progress : R := 2 * PI * time_velocity / duration.

Definition dd_progress : R :=
  if Rlt_dec 0 ramp_duration
  then if Rlt_dec time ramp_duration
       then 2 * PI / (ramp_duration * duration)
       else 0
  else 0.

Definition position (amplitude frequency : R) : R :=
  amplitude * sin (frequency * progress).

Definition velocity (amplitude frequency : R) : R :=
  amplitude * cos (frequency * progress) * frequency * d_progress.

Definition acceleration (amplitude frequency : R) : R :=
  amplitude * frequency *
  (- frequency * sin (frequency * progress) * d_progress ^ 2
   + cos (frequency * progress) * dd_progress).

Definition state : State.State :=
  let A := lissajous.A p in
  let B := lissajous.B p in
  let C := lissajous.C p in
  let a := lissajous.a p in
  let b := lissajous.b p in
  let c := lissajous.c p in
  State.mk
    (position A a) (position B b) (position C c)
    (velocity A a) (velocity B b) (velocity C c)
    (norm3 (velocity A a) (velocity B b) (velocity C c))
    (acceleration A a) (acceleration B b) (acceleration C c)
    (norm3 (acceleration A a) (acceleration B b) (acceleration C c)).

End At.
End ClosedForm.

(** The plot horizon of the Lissajous model.  [active] says which
    amplitudes and frequencies make a component active, [reaches] how the
    divisor compares with the tolerance, and [ramp] what the ramp adds.
    The specification takes "non-zero", "greater than" and the ramp
    itself; the code "positive", "not less than" and the ramp clamped at
    zero. *)
Module PlotTime.
Section Reading.

Variable active : R -> bool.
Variable reaches : R -> R -> bool.
Variable ramp : R -> R.

Definition active_frequencies (p : lissajous.Params) : list R :=
  map snd
    (filter (fun c : R * R => active (fst c) && active (snd c))
       [(lissajous.A p, lissajous.a p);
        (lissajous.B p, lissajous.b p);
        (lissajous.C p, lissajous.c p)]).

Definition cycleDuration (p : lissajous.Params) : R :=
  match active_frequencies p with
  | [] => lissajous.duration p
  | freqs =>
    let g := gcdMultiple freqs in
    if reaches g 1e-9 then lissajous.duration p / g
    else lissajous.duration p
  end.

Definition plotTime (p : lissajous.Params) : R :=
  if Rle_dec (lissajous.duration p) 0 then 0
  else ramp (lissajous.ramp_duration p) + cycleDuration p.

End Reading.

(** As the specification states it. *)
Definition stated : lissajous.Params -> R :=
  plotTime (fun v => negb (JS.eqb v 0)) JS.gtb (fun r => r).

(** As the code has it. *)
Definition amended : lissajous.Params -> R :=
  plotTime (fun v => JS.gtb v 0) (fun g e => negb (JS.ltb g e)) (Rmax 0).

End PlotTime.

(** The singularity test of the Lissajous model: the magnitude of the
    velocity at [t = 0] with [d_progress = 2π/duration]. *)
Definition initial_speed (p : lissajous.Params) : R :=
  let d_progress := 2 * PI / lissajous.duration p in
  norm3 (lissajous.A p * lissajous.a p * d_progress)
        (lissajous.B p * lissajous.b p * d_progress)
        (lissajous.C p * lissajous.c p * d_progress).

(** Three parameter sets on which the plot horizon is not the stated one:
    a negative ramp, a negative amplitude, and a single frequency equal to
    the tolerance. *)
Definition negative_ramp : lissajous.Params :=
  lissajous.mkParams 0 0 0 0 0 0 10 (-1).

Definition negative_amplitude : lissajous.Params :=
  lissajous.mkParams (-1) 0 0 2 0 0 10 0.

Definition frequency_at_tolerance : lissajous.Params :=
  lissajous.mkParams 1 0 0 1e-9 0 0 10 0.

(** A parameter set with a negative ramp: one axis of amplitude 1 and
    frequency 1, [duration = 1], [ramp_duration = -1]. *)
Definition ramp_below_zero : lissajous.Params :=
  lissajous.mkParams 1 0 0 1 0 0 1 (-1).

(** *** Statistics *)

Definition Rsum (values : list R) : R := fold_right Rplus 0 values.

(** The arithmetic mean and the population standard deviation of
    [values], with the divisor [N] named. *)
Definition mean_over (N : nat) (values : list R) : R := Rsum values / INR N.

Definition std_over (N : nat) (values : list R) : R :=
  sqrt (Rsum (map (fun v => (v - mean_over N values) ^ 2) values) / INR N).

Definition is_min (m : R) (values : list R) : Prop :=
  In m values /\ Forall (fun v => m <= v) values.

Definition is_max (m : R) (values : list R) : Prop :=
  In m values /\ Forall (fun v => v <= m) values.

(** The six statistics of [values], divided by [N], under the field names
    that start with [prefix]. *)
Definition summarises (prefix : string) (N : nat) (values : list R)
  (r : StatRecord) : Prop :=
  field (prefix ++ "Mean") r = Some (mean_over N values)
  /\ field (prefix ++ "Std") r = Some (std_over N values)
  /\ (exists m, field (prefix ++ "Min") r = Some m /\ is_min m values)
  /\ (exists m, field (prefix ++ "Max") r = Some m /\ is_max m values)
  /\ field (prefix ++ "Lower") r
     = Some (mean_over N values - std_over N values)
  /\ field (prefix ++ "Upper") r
     = Some (mean_over N values + std_over N values).

(** The values of [f] at index [i] of the trajectories that have an entry
    there, in the order of the batch. *)
Definition present (f : Sample.Sample -> R)
  (batch : list (list Sample.Sample)) (i : nat) : list R :=
  flat_map (fun traj => match nth_error traj i with
                        | Some point => [f point]
                        | None => []
                        end) batch.

(** [values] holds the value of [f] at index [i] of every trajectory of
    the batch, one for one. *)
Definition column (f : Sample.Sample -> R)
  (batch : list (list Sample.Sample)) (i : nat) (values : list R) : Prop :=
  Forall2 (fun traj v => exists point,
             nth_error traj i = Some point /\ v = f point)
          batch values.

(** The names of the six statistics of a series. *)
Definition six (prefix : string) : list string :=
  map (String.append prefix) ["Min"; "Max"; "Mean"; "Std"; "Lower"; "Upper"]%string.

Definition has_field (r : StatRecord) (name : string) : bool :=
  match field name r with Some _ => true | None => false end.

Definition has_six (r : StatRecord) : bool :=
  forallb (has_field r) (six "speed") && forallb (has_field r) (six "accel").

(** What the record built at index [i] holds, for a batch of more than
    one trajectory. *)
Definition band_at (batch : list (list Sample.Sample)) (i : nat)
  (r : StatRecord) : Prop :=
  (exists point0, nth_error (nth 0 batch []) i = Some point0
                  /\ field "t" r = Some (Sample.t point0))
  /\ summarises "speed" (List.length (present Sample.speed batch i))
       (present Sample.speed batch i) r
  /\ summarises "accel" (List.length (present Sample.accel batch i))
       (present Sample.accel batch i) r
  /\ has_six r = true.

(** What the record of a single trajectory holds: the value itself as
    minimum, maximum and mean, a deviation of zero, and no band. *)
Definition copies (point : Sample.Sample) (r : StatRecord) : Prop :=
  field "speedMin" r = Some (Sample.speed point)
  /\ field "speedMax" r = Some (Sample.speed point)
  /\ field "speedMean" r = Some (Sample.speed point)
  /\ field "speedStd" r = Some 0
  /\ field "accelMin" r = Some (Sample.accel point)
  /\ field "accelMax" r = Some (Sample.accel point)
  /\ field "accelMean" r = Some (Sample.accel point)
  /\ field "accelStd" r = Some 0
  /\ field "speedLower" r = None /\ field "speedUpper" r = None
  /\ field "accelLower" r = None /\ field "accelUpper" r = None.

(** A sample at rest at time [t] but for its speed and acceleration. *)
Definition moving (t speed accel : R) : Sample.Sample :=
  Sample.mk t 0 0 0 0 0 0 speed 0 0 0 accel.

(** *** Trajectories in time *)

(** The sample times both models use: [Math.min(i * dt, plotTime)] for
    [i] from 0 to [steps]. *)
Definition grid (steps : nat) (dt plotTime : R) : list R :=
  map (fun i : nat => Rmin (INR i * dt) plotTime) (seq 0 (S steps)).

(** The last element of a list of times. *)
Definition ends_at (ts : list R) (v : R) : Prop :=
  exists front, ts = front ++ [v].

(** The draws let every loop of [normalRandom] end within [fuel] turns:
    from any position on, one of the next [fuel] draws is not zero. *)
Definition fair (random : nat -> R) (fuel : nat) : Prop :=
  forall k, exists j, (j < fuel)%nat /\ random (k + j)%nat <> 0.

(** A trajectory on the grid: times in non-decreasing order, the first
    one 0, the last one [min(steps * dt, plotTime)], which is at most the
    horizon and less than [dt] before it. *)
Definition on_grid (steps : nat) (dt plotTime : R)
  (data : list Sample.Sample) : Prop :=
  StronglySorted Rle (times data)
  /\ hd_error (times data) = Some 0
  /\ ends_at (times data) (Rmin (INR steps * dt) plotTime)
  /\ plotTime - dt < Rmin (INR steps * dt) plotTime <= plotTime.

(** The run of the Langevin model when no draw can matter: every noise
    value is replaced by 0. *)
Module NoiseFree.

Definition dims (p : langevin.Params) (dt sqrt_dt omega2 : R)
  (w : langevin.Work) : langevin.Work :=
  fold_left (fun w dim => langevin.advance p dt sqrt_dt omega2 dim w 0)
            [0; 1; 2]%nat w.

Definition step (p : langevin.Params) (dt sqrt_dt omega2 plotTime : R)
  (i : nat) (st : langevin.Work * list Sample.Sample)
  : langevin.Work * list Sample.Sample :=
  let w' := dims p dt sqrt_dt omega2 (fst st) in
  (w', snd st ++ [langevin.sample_of (Rmin (INR i * dt) plotTime) dt
                    (langevin.vel (fst st)) w']).

Definition run (p : langevin.Params) (dt : R) : list Sample.Sample :=
  let plotTime := langevin.getPlotTime p in
  let omega2 := langevin.omega p * langevin.omega p in
  snd (fold_left (fun st i => step p dt (sqrt dt) omega2 plotTime i st)
         (seq 1 (langevin.steps plotTime dt))
         (langevin.mkWork [0; 0; 0] [0; 0; 0] [0; 0; 0] [0; 0; 0],
          [Sample.mk 0 0 0 0 0 0 0 0 0 0 0 0])).

End NoiseFree.

(** Draws that are all one half. *)
Definition halves : nat -> R := fun _ => 1 / 2.

(** Draws that are zero at every even position and one quarter at every
    odd one. *)
Definition every_other : nat -> R :=
  fun k => if Nat.even k then 0 else 1 / 4.

(** *** Further properties of the engine and the tuner *)



(** A running minimum that is set and at most [v]; a running maximum that
    is set and at least [v]. *)
Definition below (m : option R) (v : R) : Prop :=
  match m with Some lo => lo <= v | None => False end.

Definition above (m : option R) (v : R) : Prop :=
  match m with Some hi => v <= hi | None => False end.

(** The extremes enclose the point. *)
Definition encloses (e : app.Extremes) (p : Sample.Sample) : Prop :=
  below (app.xMin e) (Sample.x p) /\ above (app.xMax e) (Sample.x p)
  /\ below (app.yMin e) (Sample.y p) /\ above (app.yMax e) (Sample.y p).

(** [best] is a sample of [seen], kept with its distance to [t], and no
    sample of [seen] is nearer to [t]. *)
Definition nearest_of (t : R) (seen : list Sample.Sample)
  (best : Sample.Sample * R) : Prop :=
  In (fst best) seen
  /\ snd best = Rabs (Sample.t (fst best) - t)
  /\ forall q, In q seen -> snd best <= Rabs (Sample.t q - t).

(** The parameter set [{ ...params, duration: d }]. *)
Definition with_duration (p : lissajous.Params) (d : R) : lissajous.Params :=
  lissajous.mkParams (lissajous.A p) (lissajous.B p) (lissajous.C p)
                     (lissajous.a p) (lissajous.b p) (lissajous.c p)
                     d (lissajous.ramp_duration p).

(** The state of the curve from the phase [P] and its first and second
    derivatives [D] and [DD]. *)
Definition kinematics (p : lissajous.Params) (P D DD : R) : State.State :=
  let x := lissajous.A p * sin (lissajous.a p * P) in
  let y := lissajous.B p * sin (lissajous.b p * P) in
  let z := lissajous.C p * sin (lissajous.c p * P) in
  let vx := lissajous.A p * cos (lissajous.a p * P) * lissajous.a p * D in
  let vy := lissajous.B p * cos (lissajous.b p * P) * lissajous.b p * D in
  let vz := lissajous.C p * cos (lissajous.c p * P) * lissajous.c p * D in
  let ax := lissajous.A p * lissajous.a p *
    (- lissajous.a p * sin (lissajous.a p * P) * D * D
     + cos (lissajous.a p * P) * DD) in
  let ay := lissajous.B p * lissajous.b p *
    (- lissajous.b p * sin (lissajous.b p * P) * D * D
     + cos (lissajous.b p * P) * DD) in
  let az := lissajous.C p * lissajous.c p *
    (- lissajous.c p * sin (lissajous.c p * P) * D * D
     + cos (lissajous.c p * P) * DD) in
  State.mk x y z vx vy vz (JS.hypot vx vy vz) ax ay az (JS.hypot ax ay az).

(** The phase within the ramp and after it, as polynomials of the time. *)
Definition ramp_c2 (p : lissajous.Params) : R :=
  PI / (lissajous.ramp_duration p * lissajous.duration p).

Definition cruise_c1 (p : lissajous.Params) : R :=
  2 * PI / lissajous.duration p.

Definition cruise_c0 (p : lissajous.Params) : R :=
  - (lissajous.ramp_duration p / 2) * (2 * PI / lissajous.duration p).

(** The times of the records. *)
Definition record_times (out : list StatRecord) : list (option R) :=
  map (field "t") out.


(** The first sample of every run. *)
Definition origin_sample : Sample.Sample :=
  Sample.mk 0 0 0 0 0 0 0 0 0 0 0 0.

(** [s'] is the sample after [s]: the position has moved by the new
    velocity times [dt], the acceleration is the change of velocity
    divided by [dt], and speed and acceleration magnitude are the norms of
    their vectors. *)
Definition follows (dt : R) (s s' : Sample.Sample) : Prop :=
  Sample.x s' = Sample.x s + Sample.vx s' * dt
  /\ Sample.y s' = Sample.y s + Sample.vy s' * dt
  /\ Sample.z s' = Sample.z s + Sample.vz s' * dt
  /\ Sample.ax s' = (Sample.vx s' - Sample.vx s) / dt
  /\ Sample.ay s' = (Sample.vy s' - Sample.vy s) / dt
  /\ Sample.az s' = (Sample.vz s' - Sample.vz s) / dt
  /\ Sample.speed s' = JS.hypot (Sample.vx s') (Sample.vy s') (Sample.vz s')
  /\ Sample.accel s' = JS.hypot (Sample.ax s') (Sample.ay s') (Sample.az s').

(** Every element of the list and the next one are related. *)
Definition adjacent {A : Type} (R : A -> A -> Prop) (l : list A) : Prop :=
  forall i a b, nth_error l i = Some a -> nth_error l (S i) = Some b -> R a b.

(** The sample is at the origin and nothing moves. *)
Definition at_rest (s : Sample.Sample) : Prop :=
  Sample.x s = 0 /\ Sample.y s = 0 /\ Sample.z s = 0
  /\ Sample.vx s = 0 /\ Sample.vy s = 0 /\ Sample.vz s = 0
  /\ Sample.speed s = 0 /\ Sample.accel s = 0.

(** What the loop over the steps keeps: the arrays [pos] and [vel] hold
    the position and velocity of the last sample pushed. *)
Definition in_step (dt : R) (st : langevin.Work * list Sample.Sample) : Prop :=
  exists front last,
    snd st = front ++ [last]
    /\ langevin.vel (fst st)
       = [Sample.vx last; Sample.vy last; Sample.vz last]
    /\ langevin.pos (fst st)
       = [Sample.x last; Sample.y last; Sample.z last]
    /\ adjacent (follows dt) (snd st)
    /\ hd_error (snd st) = Some origin_sample.

(** The four arrays at the start of a run. *)
Definition resting : langevin.Work :=
  langevin.mkWork [0; 0; 0] [0; 0; 0] [0; 0; 0] [0; 0; 0].

(** The times, in order, of the points of the earlier tuner's plot. *)
Definition plot_times (data : list legacy.PlotPoint.PlotPoint) : list R :=
  map legacy.PlotPoint.t data.

(** The distance of a sample from the origin. *)
Definition distance (p : Sample.Sample) : R :=
  norm3 (Sample.x p) (Sample.y p) (Sample.z p).

(** ** Comparisons *)

Lemma ltb_true (x y : R) : JS.ltb x y = true <-> x < y.
Proof. unfold JS.ltb. destruct (Rlt_dec x y); split; intros; try easy. Qed.

Lemma ltb_false (x y : R) : JS.ltb x y = false <-> y <= x.
Proof.
  unfold JS.ltb. destruct (Rlt_dec x y); split; intros; try easy; lra.
Qed.

Lemma gtb_true (x y : R) : JS.gtb x y = true <-> x > y.
Proof. unfold JS.gtb. rewrite ltb_true. reflexivity. Qed.

Lemma gtb_false (x y : R) : JS.gtb x y = false <-> x <= y.
Proof. unfold JS.gtb. rewrite ltb_false. reflexivity. Qed.

Lemma leb_true (x y : R) : JS.leb x y = true <-> x <= y.
Proof. unfold JS.leb. destruct (Rle_dec x y); split; intros; try easy. Qed.

Lemma leb_false (x y : R) : JS.leb x y = false <-> y < x.
Proof.
  unfold JS.leb. destruct (Rle_dec x y); split; intros; try easy; lra.
Qed.

Lemma eqb_true (x y : R) : JS.eqb x y = true <-> x = y.
Proof. unfold JS.eqb. destruct (Req_dec_T x y); split; intros; try easy. Qed.

Lemma eqb_false (x y : R) : JS.eqb x y = false <-> x <> y.
Proof. unfold JS.eqb. destruct (Req_dec_T x y); split; intros; try easy. Qed.

(** Settles the comparisons of concrete numbers in the goal. *)
Ltac js_compare :=
  repeat match goal with
    | |- context [JS.gtb ?x ?y] =>
      first [ rewrite (proj2 (gtb_true x y)) by lra
            | rewrite (proj2 (gtb_false x y)) by lra ]
    | |- context [JS.ltb ?x ?y] =>
      first [ rewrite (proj2 (ltb_true x y)) by lra
            | rewrite (proj2 (ltb_false x y)) by lra ]
    | |- context [JS.leb ?x ?y] =>
      first [ rewrite (proj2 (leb_true x y)) by lra
            | rewrite (proj2 (leb_false x y)) by lra ]
    | |- context [JS.eqb ?x ?y] =>
      first [ rewrite (proj2 (eqb_true x y)) by lra
            | rewrite (proj2 (eqb_false x y)) by lra ]
    end.

Ltac js_lists :=
  cbn [andb negb app List.length Nat.eqb filter map fst snd fold_left].

Lemma hypot_norm3 (x y z : R) : JS.hypot x y z = norm3 x y z.
Proof. unfold JS.hypot, norm3. f_equal. ring. Qed.

Lemma norm3_axis (x : R) : 0 <= x -> norm3 x 0 0 = x.
Proof.
  intros Hx. unfold norm3.
  replace (x ^ 2 + 0 ^ 2 + 0 ^ 2) with (x * x) by ring.
  apply sqrt_square, Hx.
Qed.

(** ** The Lissajous model *)

(** C1. With [duration > 0], [lissajous.evaluate] returns at every time
    the closed form of the specification: position, velocity and
    acceleration per axis from [progress], [d_progress] and [dd_progress],
    and the Euclidean norms of velocity and acceleration. *)
Theorem evaluate_closed_form (time : R) (p : lissajous.Params) :
  lissajous.duration p > 0 ->
  lissajous.evaluate time p = ClosedForm.state time p.
Proof.
  intros Hd.
  unfold lissajous.evaluate, ClosedForm.state.
  unfold ClosedForm.position, ClosedForm.velocity, ClosedForm.acceleration.
  unfold ClosedForm.progress, ClosedForm.d_progress, ClosedForm.dd_progress.
  unfold ClosedForm.ramp_time, ClosedForm.time_velocity.
  unfold JS.gtb, JS.ltb.
  rewrite !hypot_norm3.
  destruct (Rlt_dec 0 (lissajous.ramp_duration p)) as [Hr | Hr]; cbn [andb];
    [destruct (Rlt_dec time (lissajous.ramp_duration p)) |].
  all: cbv zeta.
  all: replace
         ((Rmin time (lissajous.ramp_duration p) / lissajous.ramp_duration p
           * Rmin time (lissajous.ramp_duration p) / 2
           + Rmax 0 (time - lissajous.ramp_duration p))
          * 2 * PI / lissajous.duration p)
       with
         ((Rmin time (lissajous.ramp_duration p) / lissajous.ramp_duration p
           * Rmin time (lissajous.ramp_duration p) / 2
           + Rmax 0 (time - lissajous.ramp_duration p))
          * (2 * PI) / lissajous.duration p)
       by (unfold Rdiv; ring).
  all: replace
         ((1 * Rmin time (lissajous.ramp_duration p) / 2
           + Rmax 0 (time - lissajous.ramp_duration p))
          * 2 * PI / lissajous.duration p)
       with
         ((1 * Rmin time (lissajous.ramp_duration p) / 2
           + Rmax 0 (time - lissajous.ramp_duration p))
          * (2 * PI) / lissajous.duration p)
       by (unfold Rdiv; ring).
  all: f_equal; try (f_equal; unfold Rdiv; ring); unfold Rdiv; ring.
Qed.

(** The check of the specification: without a ramp the curve starts at
    the origin, whatever the amplitudes and frequencies. *)
Lemma evaluate_origin (p : lissajous.Params) :
  lissajous.ramp_duration p = 0 ->
  State.x (lissajous.evaluate 0 p) = 0
  /\ State.y (lissajous.evaluate 0 p) = 0
  /\ State.z (lissajous.evaluate 0 p) = 0.
Proof.
  intros Hr. unfold lissajous.evaluate. cbn [State.x State.y State.z].
  rewrite Hr. js_compare.
  rewrite Rmin_left, Rmax_left by lra.
  replace ((1 * 0 / 2 + 0) * (2 * PI) / lissajous.duration p) with 0
    by (unfold Rdiv; ring).
  rewrite !Rmult_0_r, sin_0, !Rmult_0_r. repeat split.
Qed.

Lemma evaluate_closed_form_witness :
  lissajous.duration lissajous.defaultParams > 0
  /\ lissajous.evaluate 1 lissajous.defaultParams
     = ClosedForm.state 1 lissajous.defaultParams.
Proof.
  split.
  - simpl. lra.
  - apply (evaluate_closed_form 1 lissajous.defaultParams). simpl. lra.
Defined.

Lemma activeFreqs_positive (p : lissajous.Params) :
  lissajous.activeFreqs p
  = PlotTime.active_frequencies (fun v => JS.gtb v 0) p.
Proof.
  unfold lissajous.activeFreqs, PlotTime.active_frequencies. cbn.
  destruct (JS.gtb (lissajous.A p) 0 && JS.gtb (lissajous.a p) 0),
           (JS.gtb (lissajous.B p) 0 && JS.gtb (lissajous.b p) 0),
           (JS.gtb (lissajous.C p) 0 && JS.gtb (lissajous.c p) 0);
    reflexivity.
Qed.

Lemma calculateCycleDuration_amended (p : lissajous.Params) :
  lissajous.calculateCycleDuration p
  = PlotTime.cycleDuration (fun v => JS.gtb v 0)
      (fun g e => negb (JS.ltb g e)) p.
Proof.
  unfold lissajous.calculateCycleDuration, PlotTime.cycleDuration.
  rewrite activeFreqs_positive.
  destruct (PlotTime.active_frequencies (fun v => JS.gtb v 0) p)
    as [| f freqs]; [reflexivity |].
  cbn [List.length Nat.eqb]. cbv zeta.
  destruct (JS.ltb (gcdMultiple (f :: freqs)) 1e-9); cbn [negb];
    [reflexivity |].
  unfold Rdiv. ring.
Qed.

(** C2, as the code has it.  [lissajous.getPlotTime] returns 0 when
    [duration <= 0] and otherwise [max(0, ramp_duration) + cycleDuration];
    the active components are those with positive amplitude and positive
    frequency; [cycleDuration] is [duration / g] when the divisor [g] of
    the active frequencies is at least [1e-9], and [duration] when [g] is
    below [1e-9] or no component is active. *)
Theorem getPlotTime_amended (p : lissajous.Params) :
  lissajous.getPlotTime p = PlotTime.amended p.
Proof.
  unfold lissajous.getPlotTime, PlotTime.amended, PlotTime.plotTime.
  rewrite calculateCycleDuration_amended.
  destruct (Rle_dec (lissajous.duration p) 0) as [Hd | Hd].
  - apply gtb_false in Hd. rewrite Hd. reflexivity.
  - apply Rnot_le_gt, gtb_true in Hd. rewrite Hd. reflexivity.
Qed.

Lemma gcd_zero_l (n : R) : gcd 0 n = Rabs n.
Proof.
  unfold gcd. rewrite Rabs_R0. unfold tol. js_compare. reflexivity.
Qed.

Lemma Rle_dec_true (x y : R) (T : Type) (u v : T) :
  x <= y -> (if Rle_dec x y then u else v) = u.
Proof. intros H. destruct (Rle_dec x y); [reflexivity | contradiction]. Qed.

Lemma Rle_dec_false (x y : R) (T : Type) (u v : T) :
  y < x -> (if Rle_dec x y then u else v) = v.
Proof. intros H. destruct (Rle_dec x y); [lra | reflexivity]. Qed.

Lemma getPlotTime_negative_ramp :
  lissajous.getPlotTime negative_ramp = 10
  /\ PlotTime.stated negative_ramp = 9.
Proof.
  split.
  - unfold lissajous.getPlotTime, lissajous.calculateCycleDuration,
      lissajous.activeFreqs, negative_ramp; cbn -[JS.gtb JS.ltb Rmax].
    js_compare. js_lists. rewrite Rmax_left by lra. lra.
  - unfold PlotTime.stated, PlotTime.plotTime, PlotTime.cycleDuration,
      PlotTime.active_frequencies, negative_ramp; cbn -[JS.eqb JS.gtb Rle_dec].
    js_compare. js_lists. rewrite Rle_dec_false by lra. lra.
Qed.

Lemma getPlotTime_negative_amplitude :
  lissajous.getPlotTime negative_amplitude = 10
  /\ PlotTime.stated negative_amplitude = 5.
Proof.
  split.
  - unfold lissajous.getPlotTime, lissajous.calculateCycleDuration,
      lissajous.activeFreqs, negative_amplitude; cbn -[JS.gtb JS.ltb Rmax].
    js_compare. js_lists. rewrite Rmax_left by lra. lra.
  - unfold PlotTime.stated, PlotTime.plotTime, PlotTime.cycleDuration,
      PlotTime.active_frequencies, negative_amplitude;
      cbn -[JS.eqb JS.gtb Rle_dec gcdMultiple].
    js_compare. js_lists. rewrite Rle_dec_false by lra.
    unfold gcdMultiple; js_lists. rewrite gcd_zero_l, Rabs_pos_eq by lra.
    js_compare. lra.
Qed.

Lemma getPlotTime_frequency_at_tolerance :
  lissajous.getPlotTime frequency_at_tolerance = 10000000000
  /\ PlotTime.stated frequency_at_tolerance = 10.
Proof.
  split.
  - unfold lissajous.getPlotTime, lissajous.calculateCycleDuration,
      lissajous.activeFreqs, frequency_at_tolerance;
      cbn -[JS.gtb JS.ltb Rmax gcdMultiple].
    js_compare. js_lists.
    unfold gcdMultiple; js_lists. rewrite gcd_zero_l, Rabs_pos_eq by lra.
    js_compare. rewrite Rmax_left by lra. lra.
  - unfold PlotTime.stated, PlotTime.plotTime, PlotTime.cycleDuration,
      PlotTime.active_frequencies, frequency_at_tolerance;
      cbn -[JS.eqb JS.gtb Rle_dec gcdMultiple].
    js_compare. js_lists. rewrite Rle_dec_false by lra.
    unfold gcdMultiple; js_lists. rewrite gcd_zero_l, Rabs_pos_eq by lra.
    js_compare. lra.
Qed.

(** C2, as stated, fails: with [ramp_duration = -1] and [duration = 10]
    (no active component) the code returns [10], not [-1 + 10]; with
    amplitude [-1] and frequency [2] the component is not active for the
    code, which returns [10], not [10 / 2]; with the single frequency
    [1e-9] the code divides by it and returns [1e10], not [10]. *)
Lemma getPlotTime_stated_fails :
  lissajous.getPlotTime negative_ramp <> PlotTime.stated negative_ramp
  /\ lissajous.getPlotTime negative_amplitude
     <> PlotTime.stated negative_amplitude
  /\ lissajous.getPlotTime frequency_at_tolerance
     <> PlotTime.stated frequency_at_tolerance.
Proof.
  destruct getPlotTime_negative_ramp as [-> ->].
  destruct getPlotTime_negative_amplitude as [-> ->].
  destruct getPlotTime_frequency_at_tolerance as [-> ->].
  repeat split; lra.
Qed.

(** The loop of [gcd], one turn at a time. *)
Lemma gcd_loop_step (a b : R) :
  tol < b -> gcd_loop a b = gcd_loop b (JS.rem a b).
Proof.
  intros H. rewrite gcd_loop_equation_1.
  destruct (Rlt_dec tol b); [reflexivity | contradiction].
Qed.

Lemma gcd_loop_exit (a b : R) : b <= tol -> gcd_loop a b = a.
Proof.
  intros H. rewrite gcd_loop_equation_1.
  destruct (Rlt_dec tol b); [lra | reflexivity].
Qed.

Lemma rem_multiple (k : Z) (b : R) :
  0 < b -> (0 <= k)%Z -> JS.rem (IZR k * b) b = 0.
Proof.
  intros Hb Hk. unfold JS.rem, JS.trunc.
  replace (IZR k * b / b) with (IZR k) by (field; lra).
  apply IZR_le in Hk.
  rewrite Rle_dec_true by exact Hk.
  rewrite ZfloorZ. ring.
Qed.

Lemma gcd_multiple (k : Z) (b : R) :
  tol < b -> (1 <= k)%Z -> gcd (IZR k * b) b = b.
Proof.
  intros Hb Hk. assert (Ht : 0 < tol) by (unfold tol; lra).
  assert (Hk' : 1 <= IZR k) by (apply IZR_le in Hk; exact Hk).
  assert (Hkb : b <= IZR k * b) by nra.
  unfold gcd. rewrite !Rabs_pos_eq by lra.
  js_compare.
  rewrite gcd_loop_step by exact Hb.
  rewrite rem_multiple by (lra || lia).
  apply gcd_loop_exit. lra.
Qed.

(** The check of the specification: frequencies 2, 1, 1 with positive
    amplitudes, [duration = 10] and no ramp give a cycle, and a plot
    horizon, of exactly 10. *)
Lemma cycle_of_2_1_1 :
  let p := lissajous.mkParams 1 1 1 2 1 1 10 0 in
  gcdMultiple (lissajous.activeFreqs p) = 1
  /\ lissajous.calculateCycleDuration p = 10
  /\ lissajous.getPlotTime p = 10.
Proof.
  assert (Ht : tol < 1) by (unfold tol; lra).
  assert (Hg : gcdMultiple [2; 1; 1] = 1).
  { unfold gcdMultiple; js_lists.
    rewrite gcd_zero_l, Rabs_pos_eq by lra.
    replace 2 with (IZR 2 * 1) by lra.
    rewrite gcd_multiple by (lra || lia).
    replace 1 with (IZR 1 * 1) at 1 by lra.
    apply gcd_multiple; lra || lia. }
  assert (Ha : lissajous.activeFreqs (lissajous.mkParams 1 1 1 2 1 1 10 0)
               = [2; 1; 1]).
  { unfold lissajous.activeFreqs; cbn -[JS.gtb]. js_compare. reflexivity. }
  cbv zeta.
  assert (Hc : lissajous.calculateCycleDuration
                 (lissajous.mkParams 1 1 1 2 1 1 10 0) = 10).
  { unfold lissajous.calculateCycleDuration. rewrite Ha, Hg.
    cbn -[JS.ltb]. js_compare. lra. }
  split; [rewrite Ha; exact Hg | split; [exact Hc |]].
  unfold lissajous.getPlotTime. rewrite Hc. cbn -[JS.gtb Rmax].
  js_compare. cbn [negb]. rewrite Rmax_left by lra. lra.
Qed.

(** C5, as the code has it.  [lissajous.hasSingularity] returns true
    exactly when [ramp_duration <= 0] and the magnitude of the velocity at
    [t = 0], taken with [d_progress = 2π/duration], exceeds [1e-9]; it
    returns false whenever [ramp_duration > 0].  Both sides take the same
    quotient by [duration]. *)
Theorem hasSingularity_amended (p : lissajous.Params) :
  (lissajous.hasSingularity p = true
   <-> lissajous.ramp_duration p <= 0 /\ initial_speed p > 1e-9)
  /\ (lissajous.ramp_duration p > 0 -> lissajous.hasSingularity p = false).
Proof.
  unfold lissajous.hasSingularity, initial_speed. cbv zeta.
  rewrite hypot_norm3.
  destruct (JS.gtb (lissajous.ramp_duration p) 0) eqn:Hr.
  - apply gtb_true in Hr. split; [| reflexivity].
    split; [discriminate | intros [Hle _]; lra].
  - apply gtb_false in Hr. split; [| intros H; lra].
    rewrite gtb_true. tauto.
Qed.

Lemma hasSingularity_amended_witness :
  let p := lissajous.defaultParams in
  lissajous.ramp_duration p > 0 /\ lissajous.hasSingularity p = false.
Proof.
  split.
  - simpl. lra.
  - apply (hasSingularity_amended lissajous.defaultParams). simpl. lra.
Defined.

(** C5, as stated, fails: for [ramp_duration = -1] the code returns true
    (the velocity at the origin is [2π]) although [ramp_duration] is not
    zero. *)
Lemma hasSingularity_stated_fails :
  ~ (lissajous.hasSingularity ramp_below_zero = true
     <-> lissajous.ramp_duration ramp_below_zero = 0
         /\ initial_speed ramp_below_zero > 1e-9).
Proof.
  intros [Hcode _].
  assert (Htrue : lissajous.hasSingularity ramp_below_zero = true).
  { unfold lissajous.hasSingularity, ramp_below_zero; cbn -[JS.gtb JS.hypot PI].
    js_compare. rewrite hypot_norm3.
    replace (0 * 0 * (2 * PI / 1)) with 0 by lra.
    rewrite norm3_axis by (pose proof PI_RGT_0; lra).
    apply gtb_true. pose proof PI2_3_2. lra. }
  destruct (Hcode Htrue) as [H0 _]. cbn in H0. lra.
Qed.

Lemma fold_left_Rplus (values : list R) (acc : R) :
  fold_left (fun a b => a + b) values acc = acc + Rsum values.
Proof.
  revert acc.
  induction values as [| v values IH]; intros acc;
    cbn [fold_left]; unfold Rsum; cbn [fold_right].
  - lra.
  - rewrite IH. unfold Rsum. lra.
Qed.

Lemma fold_left_squares (mean : R) (values : list R) (acc : R) :
  fold_left (fun sum v => sum + (v - mean) ^ 2) values acc
  = acc + Rsum (map (fun v => (v - mean) ^ 2) values).
Proof.
  revert acc.
  induction values as [| v values IH]; intros acc;
    cbn [fold_left map]; unfold Rsum; cbn [fold_right].
  - ring.
  - rewrite IH. unfold Rsum. ring.
Qed.

Lemma fold_left_Rmin (rest : list R) (v0 : R) :
  is_min (fold_left Rmin rest v0) (v0 :: rest).
Proof.
  revert v0. induction rest as [| v rest IH]; intros v0; cbn [fold_left].
  - split; [left; reflexivity | constructor; [lra | constructor]].
  - destruct (IH (Rmin v0 v)) as [Hin Hall].
    inversion Hall as [| ? ? Hhd Htl]; subst.
    split.
    + destruct Hin as [Heq | Hin]; [| right; right; exact Hin].
      rewrite <- Heq. unfold Rmin.
      destruct (Rle_dec v0 v); [left | right; left]; reflexivity.
    + pose proof (Rmin_l v0 v). pose proof (Rmin_r v0 v).
      constructor; [lra | constructor; [lra | exact Htl]].
Qed.

Lemma fold_left_Rmax (rest : list R) (v0 : R) :
  is_max (fold_left Rmax rest v0) (v0 :: rest).
Proof.
  revert v0. induction rest as [| v rest IH]; intros v0; cbn [fold_left].
  - split; [left; reflexivity | constructor; [lra | constructor]].
  - destruct (IH (Rmax v0 v)) as [Hin Hall].
    inversion Hall as [| ? ? Hhd Htl]; subst.
    split.
    + destruct Hin as [Heq | Hin]; [| right; right; exact Hin].
      rewrite <- Heq. unfold Rmax.
      destruct (Rle_dec v0 v); [right; left | left]; reflexivity.
    + pose proof (Rmax_l v0 v). pose proof (Rmax_r v0 v).
      constructor; [lra | constructor; [lra | exact Htl]].
Qed.

(** What [summary] returns on a column that is not empty. *)
Lemma summary_nonempty (values : list R) :
  values <> [] ->
  exists mn mx,
    summary values
    = Return (mean_over (List.length values) values, mn, mx,
              std_over (List.length values) values)
    /\ is_min mn values /\ is_max mx values.
Proof.
  destruct values as [| v0 rest]; [congruence | intros _].
  exists (fold_left Rmin rest v0), (fold_left Rmax rest v0).
  split; [| split; [apply fold_left_Rmin | apply fold_left_Rmax]].
  unfold summary, std_over, mean_over. cbv zeta.
  rewrite fold_left_squares, !fold_left_Rplus, !Rplus_0_l. reflexivity.
Qed.

Lemma collect_present (batch : list (list Sample.Sample)) (i : nat) :
  collect batch i = (present Sample.speed batch i, present Sample.accel batch i).
Proof.
  unfold collect.
  enough (H : forall speeds accels,
             fold_left
               (fun (acc : list R * list R) (traj : list Sample.Sample) =>
                  match nth_error traj i with
                  | Some point =>
                    (fst acc ++ [Sample.speed point],
                     snd acc ++ [Sample.accel point])
                  | None => acc
                  end) batch (speeds, accels)
             = (speeds ++ present Sample.speed batch i,
                accels ++ present Sample.accel batch i))
    by (rewrite H; reflexivity).
  induction batch as [| traj batch IH]; intros speeds accels; cbn.
  - rewrite !app_nil_r. reflexivity.
  - destruct (nth_error traj i) as [point |]; cbn.
    + rewrite IH, <- !app_assoc. reflexivity.
    + apply IH.
Qed.

Lemma mapM_Forall2 {A B : Type} (f : A -> outcome B) (P : A -> B -> Prop)
  (l : list A) :
  (forall i, In i l -> exists v, f i = Return v /\ P i v) ->
  exists out, mapM f l = Return out /\ Forall2 P l out.
Proof.
  induction l as [| i l IH]; intros H; cbn.
  - exists []. split; [reflexivity | constructor].
  - destruct (H i (or_introl eq_refl)) as [v [Hv HP]].
    destruct IH as [out [Hout Hall]];
      [intros j Hj; apply H; right; exact Hj |].
    exists (v :: out). rewrite Hv; cbn. rewrite Hout; cbn.
    split; [reflexivity | constructor; assumption].
Qed.

Lemma Forall2_nth_error_l {A B : Type} (P : A -> B -> Prop)
  (l : list A) (out : list B) (i : nat) (x : A) :
  Forall2 P l out -> nth_error l i = Some x ->
  exists v, nth_error out i = Some v /\ P x v.
Proof.
  intros H. revert i. induction H as [| a v l out HP _ IH]; intros i Hi.
  - destruct i; discriminate.
  - destruct i as [| i]; cbn in *.
    + injection Hi as <-. exists v. split; [reflexivity | exact HP].
    + apply IH, Hi.
Qed.

Lemma nth_error_seq_0 (n i : nat) :
  (i < n)%nat -> nth_error (seq 0 n) i = Some i.
Proof.
  intros Hi. rewrite (nth_error_nth' _ 0%nat) by (rewrite length_seq; exact Hi).
  rewrite seq_nth by exact Hi. reflexivity.
Qed.

Lemma present_first (f : Sample.Sample -> R) (first : list Sample.Sample)
  (rest : list (list Sample.Sample)) (i : nat) (point0 : Sample.Sample) :
  nth_error first i = Some point0 ->
  present f (first :: rest) i = f point0 :: present f rest i.
Proof. intros H. unfold present; cbn. rewrite H. reflexivity. Qed.

Lemma present_column (f : Sample.Sample -> R)
  (batch : list (list Sample.Sample)) (i : nat) :
  Forall (fun traj => (i < List.length traj)%nat) batch ->
  column f batch i (present f batch i).
Proof.
  unfold column, present.
  induction 1 as [| traj batch Hi _ IH]; cbn; [constructor |].
  destruct (nth_error traj i) as [point |] eqn:Hn.
  - constructor; [exists point; split; [exact Hn | reflexivity] | exact IH].
  - apply nth_error_None in Hn. lia.
Qed.

Lemma stats_at_band (first : list Sample.Sample)
  (rest : list (list Sample.Sample)) (i : nat) :
  (i < List.length first)%nat ->
  exists r, stats_at (first :: rest) i = Return r
            /\ band_at (first :: rest) i r.
Proof.
  intros Hi.
  destruct (nth_error first i) as [point0 |] eqn:Hn;
    [| apply nth_error_None in Hn; lia].
  unfold stats_at, band_at. cbn [nth]. rewrite Hn, collect_present.
  cbn [fst snd].
  destruct (summary_nonempty (present Sample.speed (first :: rest) i))
    as [smin [smax [Hs [Hsmin Hsmax]]]];
    [rewrite (present_first _ _ _ _ _ Hn); discriminate |].
  destruct (summary_nonempty (present Sample.accel (first :: rest) i))
    as [amin [amax [Ha [Hamin Hamax]]]];
    [rewrite (present_first _ _ _ _ _ Hn); discriminate |].
  rewrite Hs, Ha. cbn [obind].
  eexists. split; [reflexivity |].
  split; [exists point0; split; reflexivity |].
  unfold summarises, band.
  repeat split; try reflexivity;
    solve [ exists smin; split; [reflexivity | assumption]
          | exists smax; split; [reflexivity | assumption]
          | exists amin; split; [reflexivity | assumption]
          | exists amax; split; [reflexivity | assumption] ].
Qed.

(** The pass over a batch of more than one trajectory. *)
Lemma computeStats_many (first : list Sample.Sample)
  (rest : list (list Sample.Sample)) :
  rest <> [] ->
  exists out,
    computeStats (first :: rest) = Return out
    /\ Forall2 (band_at (first :: rest)) (seq 0 (List.length first)) out.
Proof.
  intros Hrest. unfold computeStats.
  destruct rest as [| second rest]; [congruence |].
  cbn [List.length Nat.eqb nth].
  apply mapM_Forall2. intros i Hi. apply in_seq in Hi.
  apply stats_at_band. lia.
Qed.

(** The pass over a batch of one trajectory. *)
Lemma computeStats_one (first : list Sample.Sample) :
  computeStats [first] = Return (map single first).
Proof. reflexivity. Qed.

(** C3. For a batch of [N > 1] trajectories of one length, [computeStats]
    returns one record per index of the first trajectory, in order; the
    record at index [i] carries the time of that index and, for the [N]
    speeds and the [N] accelerations at [i], the mean, the population
    standard deviation (divisor [N]), the minimum, the maximum, and
    mean - std and mean + std. *)
Theorem computeStats_aligned (first : list Sample.Sample)
  (rest : list (list Sample.Sample)) :
  rest <> [] ->
  Forall (fun traj => List.length traj = List.length first) rest ->
  exists out,
    computeStats (first :: rest) = Return out
    /\ List.length out = List.length first
    /\ forall i point0, nth_error first i = Some point0 ->
       exists r speeds accels,
         nth_error out i = Some r
         /\ field "t" r = Some (Sample.t point0)
         /\ column Sample.speed (first :: rest) i speeds
         /\ column Sample.accel (first :: rest) i accels
         /\ summarises "speed" (List.length (first :: rest)) speeds r
         /\ summarises "accel" (List.length (first :: rest)) accels r.
Proof.
  intros Hrest Haligned.
  destruct (computeStats_many first rest Hrest) as [out [Hout Hall]].
  exists out. split; [exact Hout |].
  split; [rewrite <- (Forall2_length Hall), length_seq; reflexivity |].
  intros i point0 Hi.
  assert (Hlt : (i < List.length first)%nat)
    by (apply nth_error_Some; congruence).
  destruct (Forall2_nth_error_l _ _ _ i i Hall (nth_error_seq_0 _ _ Hlt))
    as [r [Hr [[p0 [Hp0 Ht]] [Hspeed [Haccel _]]]]].
  cbn [nth] in Hp0. rewrite Hi in Hp0. injection Hp0 as <-.
  assert (Hin : Forall (fun traj => (i < List.length traj)%nat)
                       (first :: rest)).
  { constructor; [exact Hlt |].
    eapply Forall_impl; [| exact Haligned]. cbn. intros traj ->. exact Hlt. }
  pose proof (present_column Sample.speed _ i Hin) as Hcs.
  pose proof (present_column Sample.accel _ i Hin) as Hca.
  exists r, (present Sample.speed (first :: rest) i),
         (present Sample.accel (first :: rest) i).
  rewrite (Forall2_length Hcs) at 1. rewrite (Forall2_length Hca) at 1.
  exact (conj Hr (conj Ht (conj Hcs (conj Hca (conj Hspeed Haccel))))).
Qed.

Lemma column_two (f : Sample.Sample -> R) (p q : Sample.Sample)
  (values : list R) :
  column f [[p]; [q]] 0 values -> values = [f p; f q].
Proof.
  intros H.
  inversion H as [| ? v1 ? vs1 [p' [Hp ->]] H1]; subst.
  inversion H1 as [| ? v2 ? vs2 [q' [Hq ->]] H2]; subst.
  inversion H2; subst.
  cbn in Hp, Hq. injection Hp as <-. injection Hq as <-. reflexivity.
Qed.

Lemma is_min_unique (m m' : R) (values : list R) :
  is_min m values -> In m' values -> Forall (fun v => m' <= v) values ->
  m = m'.
Proof.
  intros [Hin Hall] Hin' Hall'.
  rewrite Forall_forall in Hall, Hall'.
  apply Rle_antisym; [apply Hall, Hin' | apply Hall', Hin].
Qed.

Lemma is_max_unique (m m' : R) (values : list R) :
  is_max m values -> In m' values -> Forall (fun v => v <= m') values ->
  m = m'.
Proof.
  intros [Hin Hall] Hin' Hall'.
  rewrite Forall_forall in Hall, Hall'.
  apply Rle_antisym; [apply Hall', Hin | apply Hall, Hin'].
Qed.

Lemma mean_1_2 : mean_over 2 [1; 2] = 1.5.
Proof. unfold mean_over, Rsum; cbn. lra. Qed.

Lemma std_1_2 : std_over 2 [1; 2] = 0.5.
Proof.
  unfold std_over. rewrite mean_1_2. unfold Rsum; cbn.
  replace (((1 - 1.5) * ((1 - 1.5) * 1) + ((2 - 1.5) * ((2 - 1.5) * 1) + 0))
           / (1 + 1))
    with (0.5 * 0.5) by lra.
  apply sqrt_square. lra.
Qed.

(** The check of the specification: speeds 1 and 2 at index 0 give mean
    1.5, deviation 0.5, minimum 1 and maximum 2. *)
Lemma computeStats_aligned_witness :
  exists out r,
    computeStats [[moving 0 1 0]; [moving 0 2 0]] = Return out
    /\ nth_error out 0 = Some r
    /\ field "speedMean" r = Some 1.5
    /\ field "speedStd" r = Some 0.5
    /\ field "speedMin" r = Some 1
    /\ field "speedMax" r = Some 2.
Proof.
  destruct (computeStats_aligned [moving 0 1 0] [[moving 0 2 0]])
    as [out [Hout [_ Hrec]]].
  - discriminate.
  - repeat constructor.
  - destruct (Hrec 0%nat (moving 0 1 0) eq_refl)
      as [r [speeds [accels [Hr [_ [Hcol [_ [Hsum _]]]]]]]].
    apply column_two in Hcol. cbn in Hcol. subst speeds.
    destruct Hsum as [Hmean [Hstd [[mn [Hmn Hmin]] [[mx [Hmx Hmax]] _]]]].
    cbn [List.length] in Hmean, Hstd.
    rewrite mean_1_2 in Hmean. rewrite std_1_2 in Hstd.
    assert (mn = 1).
    { apply (is_min_unique _ _ _ Hmin); [left; reflexivity |].
      repeat constructor; lra. }
    assert (mx = 2).
    { apply (is_max_unique _ _ _ Hmax); [right; left; reflexivity |].
      repeat constructor; lra. }
    subst mn mx.
    exists out, r. repeat split; assumption.
Defined.

(** C10. For a batch of [N > 1] trajectories, whatever their lengths,
    [computeStats] returns (it does not throw): one record per index of
    the first trajectory, whose statistics are taken over the values of
    the trajectories that have an entry at that index and divided by the
    number of these values; a trajectory too short for the index is
    skipped. *)
Theorem computeStats_skips_missing (first : list Sample.Sample)
  (rest : list (list Sample.Sample)) :
  rest <> [] ->
  exists out,
    computeStats (first :: rest) = Return out
    /\ List.length out = List.length first
    /\ forall i, (i < List.length first)%nat ->
       exists r,
         nth_error out i = Some r
         /\ summarises "speed"
              (List.length (present Sample.speed (first :: rest) i))
              (present Sample.speed (first :: rest) i) r
         /\ summarises "accel"
              (List.length (present Sample.accel (first :: rest) i))
              (present Sample.accel (first :: rest) i) r.
Proof.
  intros Hrest.
  destruct (computeStats_many first rest Hrest) as [out [Hout Hall]].
  exists out. split; [exact Hout |].
  split; [rewrite <- (Forall2_length Hall), length_seq; reflexivity |].
  intros i Hlt.
  destruct (Forall2_nth_error_l _ _ _ i i Hall (nth_error_seq_0 _ _ Hlt))
    as [r [Hr [_ [Hspeed [Haccel _]]]]].
  exists r. exact (conj Hr (conj Hspeed Haccel)).
Qed.

(** A batch whose second trajectory is shorter than the first: at index 1
    only the first one has a value. *)
Lemma computeStats_skips_missing_witness :
  present Sample.speed [[moving 0 1 0; moving 1 3 0]; [moving 0 2 0]] 1 = [3]
  /\ exists out,
       computeStats [[moving 0 1 0; moving 1 3 0]; [moving 0 2 0]]
       = Return out
       /\ List.length out = 2%nat
       /\ exists r, nth_error out 1 = Some r
                    /\ summarises "speed" 1 [3] r.
Proof.
  split; [reflexivity |].
  destruct (computeStats_skips_missing
              [moving 0 1 0; moving 1 3 0] [[moving 0 2 0]])
    as [out [Hout [Hlen Hrec]]].
  - discriminate.
  - exists out. split; [exact Hout | split; [exact Hlen |]].
    destruct (Hrec 1%nat) as [r [Hr [Hspeed _]]]; [cbn; lia |].
    exists r. split; [exact Hr | exact Hspeed].
Defined.

(** C6, as the code has it.  [computeStats] returns for every batch that
    is not empty; with more than one trajectory every record has the six
    statistics of speed and of acceleration; with a single trajectory
    every record copies the value into minimum, maximum and mean, has a
    deviation of zero, and has no field for mean - std and mean + std. *)
Theorem computeStats_fields (first : list Sample.Sample)
  (rest : list (list Sample.Sample)) :
  exists out,
    computeStats (first :: rest) = Return out
    /\ (rest <> [] -> Forall (fun r => has_six r = true) out)
    /\ (rest = [] -> Forall2 copies first out).
Proof.
  destruct rest as [| second rest].
  - exists (map single first). split; [apply computeStats_one |].
    split; [congruence | intros _].
    induction first as [| point first IH]; cbn; constructor.
    + unfold copies, single. repeat split.
    + exact IH.
  - destruct (computeStats_many first (second :: rest)) as [out [Hout Hall]];
      [discriminate |].
    exists out. split; [exact Hout |]. split; [intros _ | discriminate].
    clear Hout. induction Hall as [| i r l out Hband _ IH]; constructor.
    + apply Hband.
    + exact IH.
Qed.

Lemma computeStats_fields_witness :
  exists out,
    computeStats [[moving 0 1 0]; [moving 0 2 0]] = Return out
    /\ Forall (fun r => has_six r = true) out.
Proof.
  destruct (computeStats_fields [moving 0 1 0] [[moving 0 2 0]])
    as [out [Hout [Hmany _]]].
  exists out. split; [exact Hout | apply Hmany; discriminate].
Defined.

(** C6, as stated, fails: the record of a batch of one trajectory has no
    field for mean - std and mean + std. *)
Lemma computeStats_single_lacks_band :
  exists r,
    computeStats [[moving 0 1 0]] = Return [r]
    /\ has_six r = false
    /\ field "speedLower" r = None /\ field "speedUpper" r = None
    /\ field "accelLower" r = None /\ field "accelUpper" r = None.
Proof. eexists. repeat split. Qed.

(** ** Trajectories in time *)

(** The time of the last sample. *)
Lemma last_time_bounds (plotTime dt : R) :
  0 < dt -> 0 < plotTime ->
  let v := Rmin (INR (Z.to_nat (Z.max 1 (JS.floor (plotTime / dt)))) * dt)
                plotTime in
  plotTime - dt < v <= plotTime.
Proof.
  intros Hdt Hp v. subst v. unfold JS.floor.
  rewrite INR_IZR_INZ, Z2Nat.id by lia.
  pose proof (Zfloor_bound (plotTime / dt)) as [Hlo Hhi].
  assert (Hq : plotTime = plotTime / dt * dt) by (field; lra).
  split; [| apply Rmin_r].
  apply Rmin_glb_lt; [| lra].
  destruct (Z.max_spec 1 (Zfloor (plotTime / dt))) as [[_ ->] | [Hle ->]].
  - apply (Rmult_lt_compat_r dt) in Hhi; [| exact Hdt]. lra.
  - apply IZR_le in Hle.
    assert (H1 : plotTime / dt < 1 + 1) by lra.
    apply (Rmult_lt_compat_r dt) in H1; [| exact Hdt]. lra.
Qed.

(** When the horizon is a whole number of steps, the last sample is at
    the horizon. *)
Lemma last_time_at_horizon (n : nat) (dt : R) :
  0 < dt -> (1 <= n)%nat ->
  Rmin (INR (Z.to_nat (Z.max 1 (JS.floor (INR n * dt / dt)))) * dt)
       (INR n * dt)
  = INR n * dt.
Proof.
  intros Hdt Hn. unfold JS.floor.
  replace (INR n * dt / dt) with (IZR (Z.of_nat n))
    by (rewrite <- INR_IZR_INZ; field; lra).
  rewrite ZfloorZ, Z.max_r, Nat2Z.id by lia.
  apply Rmin_left. lra.
Qed.

Lemma grid_head (steps : nat) (dt plotTime : R) :
  0 < plotTime -> hd_error (grid steps dt plotTime) = Some 0.
Proof.
  intros Hp. unfold grid. cbn [seq map hd_error INR].
  rewrite Rmult_0_l, Rmin_left by lra. reflexivity.
Qed.

Lemma grid_last (steps : nat) (dt plotTime : R) :
  ends_at (grid steps dt plotTime) (Rmin (INR steps * dt) plotTime).
Proof.
  unfold grid, ends_at. rewrite seq_S, map_app. cbn [map Nat.add].
  eexists. reflexivity.
Qed.

Lemma map_seq_sorted (f : nat -> R) (start len : nat) :
  (forall i j, (i <= j)%nat -> f i <= f j) ->
  StronglySorted Rle (map f (seq start len)).
Proof.
  intros Hf. revert start.
  induction len as [| len IH]; intros start; cbn; constructor.
  - apply IH.
  - apply Forall_forall. intros v Hv.
    apply in_map_iff in Hv. destruct Hv as [j [<- Hj]].
    apply in_seq in Hj. apply Hf. lia.
Qed.

Lemma grid_sorted (steps : nat) (dt plotTime : R) :
  0 < dt -> StronglySorted Rle (grid steps dt plotTime).
Proof.
  intros Hdt. apply map_seq_sorted. intros i j Hij.
  apply Rle_min_compat_r. apply Rmult_le_compat_r; [lra |].
  apply le_INR, Hij.
Qed.

Lemma grid_on_grid (dt plotTime : R) (data : list Sample.Sample) :
  0 < dt -> 0 < plotTime ->
  let steps := Z.to_nat (Z.max 1 (JS.floor (plotTime / dt))) in
  times data = grid steps dt plotTime ->
  on_grid steps dt plotTime data.
Proof.
  intros Hdt Hp steps Hgrid. unfold on_grid. rewrite Hgrid.
  split; [apply grid_sorted, Hdt |].
  split; [apply grid_head, Hp |].
  split; [apply grid_last |].
  apply last_time_bounds; assumption.
Qed.

(** *** The Lissajous model *)

Lemma sample_run_times (p : lissajous.Params) (dt plotTime : R) :
  times (lissajous.sample_run p dt plotTime)
  = grid (lissajous.steps plotTime dt) dt plotTime.
Proof.
  unfold times, lissajous.sample_run, grid. rewrite map_map.
  apply map_ext. intros i. reflexivity.
Qed.

Lemma lissajous_simulate_on_grid (p : lissajous.Params) (dt : R)
  (nSamples : nat) :
  0 < dt -> 0 < lissajous.getPlotTime p ->
  List.length (lissajous.simulate p dt nSamples) = nSamples
  /\ Forall (on_grid (lissajous.steps (lissajous.getPlotTime p) dt) dt
               (lissajous.getPlotTime p))
            (lissajous.simulate p dt nSamples).
Proof.
  intros Hdt Hp. unfold lissajous.simulate. cbv zeta.
  rewrite (proj2 (leb_false _ _)) by exact Hp.
  split; [rewrite length_map, length_seq; reflexivity |].
  apply Forall_forall. intros data Hdata.
  apply in_map_iff in Hdata. destruct Hdata as [_ [<- _]].
  apply grid_on_grid; [exact Hdt | exact Hp | apply sample_run_times].
Qed.

(** *** The Langevin model *)

Section Loops.

Import langevin.

Variable random : nat -> R.
Variable fuel : nat.
Hypothesis random_fair : fair random fuel.

Lemma draw_u1_returns (n k : nat) :
  (exists j, (j < n)%nat /\ random (k + j)%nat <> 0) ->
  exists u1 k', draw_u1 random n k = Some (u1, k').
Proof.
  revert k. induction n as [| n IH]; intros k [j [Hj Hnz]]; [lia |].
  cbn [draw_u1]. unfold bind, Math_random.
  destruct (JS.eqb (random k) 0) eqn:Hz.
  - apply IH. apply eqb_true in Hz.
    destruct j as [| j]; [rewrite Nat.add_0_r in Hnz; contradiction |].
    exists j. split; [lia |].
    replace (S k + j)%nat with (k + S j)%nat by lia. exact Hnz.
  - eexists _, _. reflexivity.
Qed.

Lemma normalRandom_returns (k : nat) :
  exists noise k', normalRandom random fuel k = Some (noise, k').
Proof.
  unfold normalRandom, bind.
  destruct (draw_u1_returns fuel k (random_fair k)) as [u1 [k1 ->]].
  unfold Math_random, ret. eexists _, _. reflexivity.
Qed.

(** A loop whose body always returns, seen through [view]: when the body
    changes the view by [g], the loop changes it by the fold of [g]. *)
Lemma foldM_view {A S V : Type} (body : A -> S -> Rand S)
  (view : S -> V) (g : A -> V -> V) (l : list A) :
  (forall i s k, exists s' k',
      body i s k = Some (s', k') /\ view s' = g i (view s)) ->
  forall s k, exists s' k',
      foldM body l s k = Some (s', k')
      /\ view s' = fold_left (fun v i => g i v) l (view s).
Proof.
  intros Hbody. induction l as [| i l IH]; intros s k; cbn [foldM fold_left].
  - exists s, k. split; reflexivity.
  - destruct (Hbody i s k) as [s1 [k1 [H1 Hv1]]].
    destruct (IH s1 k1) as [s2 [k2 [H2 Hv2]]].
    exists s2, k2. unfold bind. rewrite H1. split; [exact H2 |].
    rewrite Hv2, Hv1. reflexivity.
Qed.

Lemma update_dim_returns (p : Params) (dt sqrt_dt omega2 : R)
  (dim : nat) (w : Work) (k : nat) :
  exists noise k',
    update_dim random fuel p dt sqrt_dt omega2 dim w k
    = Some (advance p dt sqrt_dt omega2 dim w noise, k').
Proof.
  unfold update_dim, bind.
  destruct (normalRandom_returns k) as [noise [k' ->]].
  exists noise, k'. reflexivity.
Qed.

End Loops.

Lemma fold_left_push {A B : Type} (h : A -> B) (l : list A) (v : list B) :
  fold_left (fun v i => v ++ [h i]) l v = v ++ map h l.
Proof.
  revert v. induction l as [| i l IH]; intros v; cbn.
  - rewrite app_nil_r. reflexivity.
  - rewrite IH, <- app_assoc. reflexivity.
Qed.

Lemma map_const_repeat {A B : Type} (v : B) (l : list A) :
  map (fun _ => v) l = repeat v (List.length l).
Proof. induction l as [| i l IH]; cbn; [| rewrite IH]; reflexivity. Qed.

Lemma advance_noise_free (p : langevin.Params) (dt sqrt_dt omega2 : R)
  (dim : nat) (w : langevin.Work) (noise : R) :
  langevin.sigma p = 0 ->
  langevin.advance p dt sqrt_dt omega2 dim w noise
  = langevin.advance p dt sqrt_dt omega2 dim w 0.
Proof.
  intros Hs. unfold langevin.advance. cbv zeta. rewrite Hs.
  rewrite !Rmult_0_l. reflexivity.
Qed.

Section Runs.

Import langevin.

Variable random : nat -> R.
Variable fuel : nat.
Hypothesis random_fair : fair random fuel.

Variable p : Params.
Variable dt : R.

Let plotTime := getPlotTime p.
Let omega2 := omega p * omega p.
Let sqrt_dt := sqrt dt.

Lemma dims_return (w : Work) (k : nat) :
  exists w' k',
    foldM (update_dim random fuel p dt sqrt_dt omega2) [0; 1; 2]%nat w k
    = Some (w', k').
Proof.
  destruct (foldM_view (update_dim random fuel p dt sqrt_dt omega2)
              (fun _ => tt) (fun _ v => v) [0; 1; 2]%nat) with (s := w) (k := k)
    as [w' [k' [H _]]].
  - intros i s k0.
    destruct (update_dim_returns random fuel random_fair p dt sqrt_dt omega2
                i s k0) as [noise [k' H]].
    eexists _, _. split; [exact H | reflexivity].
  - exists w', k'. exact H.
Qed.

Lemma step_returns (i : nat) (st : Work * list Sample.Sample) (k : nat) :
  exists st' k',
    step random fuel p dt sqrt_dt omega2 plotTime i st k = Some (st', k')
    /\ times (snd st') = times (snd st) ++ [Rmin (INR i * dt) plotTime].
Proof.
  unfold step, bind. cbv zeta.
  destruct (dims_return (fst st) k) as [w' [k' ->]].
  eexists _, _. split; [reflexivity |].
  cbn [snd]. unfold times. rewrite map_app. reflexivity.
Qed.

Lemma realization_times (k : nat) :
  0 < plotTime ->
  exists data k',
    realization random fuel p dt sqrt_dt omega2 plotTime k = Some (data, k')
    /\ times data = grid (steps plotTime dt) dt plotTime.
Proof.
  intros Hp. unfold realization, bind. cbv zeta.
  destruct (foldM_view (step random fuel p dt sqrt_dt omega2 plotTime)
              (fun st => times (snd st))
              (fun i v => v ++ [Rmin (INR i * dt) plotTime])
              (seq 1 (steps plotTime dt)) step_returns
              (mkWork [0; 0; 0] [0; 0; 0] [0; 0; 0] [0; 0; 0],
               [Sample.mk 0 (get [0; 0; 0] 0) (get [0; 0; 0] 1)
                  (get [0; 0; 0] 2) (get [0; 0; 0] 0) (get [0; 0; 0] 1)
                  (get [0; 0; 0] 2) 0 0 0 0 0]) k)
    as [st [k' [Hrun Hview]]].
  rewrite Hrun. exists (snd st), k'. split; [reflexivity |].
  rewrite Hview, fold_left_push. unfold grid.
  cbn [snd times map seq Sample.t app INR].
  rewrite Rmult_0_l, Rmin_left by lra. reflexivity.
Qed.

Lemma simulate_times (nSamples k : nat) :
  0 < plotTime ->
  exists trajectories k',
    simulate random fuel p dt nSamples k = Some (trajectories, k')
    /\ List.length trajectories = nSamples
    /\ Forall (fun data => times data = grid (steps plotTime dt) dt plotTime)
              trajectories.
Proof.
  intros Hp. unfold simulate. cbv zeta. fold plotTime omega2 sqrt_dt.
  rewrite (proj2 (leb_false _ _)) by exact Hp.
  destruct (foldM_view
              (fun (_ : nat) trajectories =>
                 data <- realization random fuel p dt sqrt_dt omega2 plotTime ;;
                 ret (trajectories ++ [data]))
              (map times)
              (fun _ v => v ++ [grid (steps plotTime dt) dt plotTime])
              (seq 0 nSamples)) with (s := @nil (list Sample.Sample)) (k := k)
    as [trajectories [k' [Hrun Hview]]].
  - intros _ s k0. unfold bind.
    destruct (realization_times k0 Hp) as [data [k1 [-> Hdata]]].
    eexists _, _. split; [reflexivity |].
    rewrite map_app. cbn [map]. rewrite Hdata. reflexivity.
  - exists trajectories, k'. split; [exact Hrun |].
    rewrite fold_left_push in Hview. cbn [map app] in Hview.
    split.
    + rewrite <- (length_map times), Hview, length_map, length_seq.
      reflexivity.
    + apply Forall_forall. intros data Hin.
      apply (in_map times) in Hin. rewrite Hview in Hin.
      apply in_map_iff in Hin. destruct Hin as [_ [Heq _]].
      symmetry. exact Heq.
Qed.

Hypothesis no_noise : sigma p = 0.

Lemma dims_noise_free (w : Work) (k : nat) :
  exists k',
    foldM (update_dim random fuel p dt sqrt_dt omega2) [0; 1; 2]%nat w k
    = Some (NoiseFree.dims p dt sqrt_dt omega2 w, k').
Proof.
  destruct (foldM_view (update_dim random fuel p dt sqrt_dt omega2)
              (fun w => w) (fun dim w => advance p dt sqrt_dt omega2 dim w 0)
              [0; 1; 2]%nat) with (s := w) (k := k)
    as [w' [k' [H Hview]]].
  - intros i s k0.
    destruct (update_dim_returns random fuel random_fair p dt sqrt_dt omega2
                i s k0) as [noise [k' H]].
    eexists _, _. split; [exact H |].
    apply advance_noise_free, no_noise.
  - exists k'. rewrite H, Hview. reflexivity.
Qed.

Lemma step_noise_free (i : nat) (st : Work * list Sample.Sample) (k : nat) :
  exists k',
    step random fuel p dt sqrt_dt omega2 plotTime i st k
    = Some (NoiseFree.step p dt sqrt_dt omega2 plotTime i st, k').
Proof.
  unfold step, bind. cbv zeta.
  destruct (dims_noise_free (fst st) k) as [k' ->].
  exists k'. reflexivity.
Qed.

Lemma realization_noise_free (k : nat) :
  exists k',
    realization random fuel p dt sqrt_dt omega2 plotTime k
    = Some (NoiseFree.run p dt, k').
Proof.
  unfold realization, bind. cbv zeta.
  destruct (foldM_view (step random fuel p dt sqrt_dt omega2 plotTime)
              (fun st => st)
              (fun i st => NoiseFree.step p dt sqrt_dt omega2 plotTime i st)
              (seq 1 (steps plotTime dt))) with
    (s := (mkWork [0; 0; 0] [0; 0; 0] [0; 0; 0] [0; 0; 0],
           [Sample.mk 0 (get [0; 0; 0] 0) (get [0; 0; 0] 1)
              (get [0; 0; 0] 2) (get [0; 0; 0] 0) (get [0; 0; 0] 1)
              (get [0; 0; 0] 2) 0 0 0 0 0])) (k := k)
    as [st [k' [Hrun Hview]]].
  - intros i s k0. destruct (step_noise_free i s k0) as [k' H].
    eexists _, _. split; [exact H | reflexivity].
  - rewrite Hrun. exists k'. rewrite Hview. reflexivity.
Qed.

Lemma simulate_noise_free (nSamples k : nat) :
  0 < plotTime ->
  exists k',
    simulate random fuel p dt nSamples k
    = Some (repeat (NoiseFree.run p dt) nSamples, k').
Proof.
  intros Hp. unfold simulate. cbv zeta. fold plotTime omega2 sqrt_dt.
  rewrite (proj2 (leb_false _ _)) by exact Hp.
  destruct (foldM_view
              (fun (_ : nat) trajectories =>
                 data <- realization random fuel p dt sqrt_dt omega2 plotTime ;;
                 ret (trajectories ++ [data]))
              (fun trajectories => trajectories)
              (fun _ v => v ++ [NoiseFree.run p dt])
              (seq 0 nSamples)) with (s := @nil (list Sample.Sample)) (k := k)
    as [trajectories [k' [Hrun Hview]]].
  - intros _ s k0. unfold bind.
    destruct (realization_noise_free k0) as [k1 ->].
    eexists _, _. split; reflexivity.
  - exists k'. rewrite Hrun, Hview, fold_left_push. cbn [app].
    rewrite map_const_repeat, length_seq. reflexivity.
Qed.

End Runs.

Lemma halves_fair : fair halves 1.
Proof. intros k. exists 0%nat. split; [lia | unfold halves; lra]. Qed.

Lemma every_other_fair : fair every_other 2.
Proof.
  intros k. unfold every_other.
  destruct (Nat.even k) eqn:Hk.
  - exists 1%nat. split; [lia |].
    replace (k + 1)%nat with (S k) by lia.
    rewrite Nat.even_succ, <- Nat.negb_even, Hk. cbn. lra.
  - exists 0%nat. split; [lia |]. rewrite Nat.add_0_r, Hk. lra.
Qed.

Lemma default_plot_time :
  lissajous.getPlotTime lissajous.defaultParams = 13.
Proof.
  assert (Ht : tol < 1) by (unfold tol; lra).
  assert (Hg : gcdMultiple [2; 1] = 1).
  { unfold gcdMultiple; js_lists.
    rewrite gcd_zero_l, Rabs_pos_eq by lra.
    replace 2 with (IZR 2 * 1) by lra.
    apply gcd_multiple; lra || lia. }
  unfold lissajous.getPlotTime, lissajous.calculateCycleDuration,
    lissajous.activeFreqs, lissajous.defaultParams;
    cbn -[JS.gtb JS.ltb Rmax gcdMultiple].
  js_compare. js_lists.
  replace [2.0; 1.0] with [2; 1] by (f_equal; [lra | f_equal; lra]).
  rewrite Hg. js_compare. rewrite Rmax_right by lra. lra.
Qed.

(** C4, as the code has it.  With [dt > 0] and a positive plot horizon,
    every trajectory that either model's [simulate] produces has its
    times in non-decreasing order, starts at [t = 0] and ends at
    [t = min(steps * dt, plotTime)] with
    [steps = max(1, floor(plotTime / dt))]: a time that is at most the
    horizon and less than [dt] before it.  For the Langevin model the
    draws are taken to let the loop of [normalRandom] end. *)
Theorem simulate_on_grid (dt : R) :
  0 < dt ->
  (forall (p : lissajous.Params) (nSamples : nat),
      0 < lissajous.getPlotTime p ->
      List.length (lissajous.simulate p dt nSamples) = nSamples
      /\ Forall (on_grid (lissajous.steps (lissajous.getPlotTime p) dt) dt
                   (lissajous.getPlotTime p))
                (lissajous.simulate p dt nSamples))
  /\ (forall (p : langevin.Params) (nSamples : nat)
             (random : nat -> R) (fuel k : nat),
         0 < langevin.getPlotTime p ->
         fair random fuel ->
         exists trajectories k',
           langevin.simulate random fuel p dt nSamples k
           = Some (trajectories, k')
           /\ List.length trajectories = nSamples
           /\ Forall (on_grid (langevin.steps (langevin.getPlotTime p) dt) dt
                        (langevin.getPlotTime p))
                     trajectories).
Proof.
  intros Hdt. split.
  - intros p nSamples Hp. apply lissajous_simulate_on_grid; assumption.
  - intros p nSamples random fuel k Hp Hfair.
    destruct (simulate_times random fuel Hfair p dt nSamples k Hp)
      as [trajectories [k' [Hrun [Hlen Hall]]]].
    exists trajectories, k'. split; [exact Hrun | split; [exact Hlen |]].
    eapply Forall_impl; [| exact Hall]. cbn. intros data Hdata.
    apply grid_on_grid; assumption.
Qed.

Lemma simulate_on_grid_witness :
  0 < 2
  /\ 0 < lissajous.getPlotTime lissajous.defaultParams
  /\ Forall (on_grid
               (lissajous.steps
                  (lissajous.getPlotTime lissajous.defaultParams) 2)
               2 (lissajous.getPlotTime lissajous.defaultParams))
            (lissajous.simulate lissajous.defaultParams 2 3%nat)
  /\ 0 < langevin.getPlotTime langevin.defaultParams
  /\ fair every_other 2
  /\ exists trajectories k',
       langevin.simulate every_other 2%nat langevin.defaultParams 2 3%nat 0%nat
       = Some (trajectories, k')
       /\ List.length trajectories = 3%nat.
Proof.
  assert (H2 : 0 < 2) by lra.
  assert (Hl : 0 < lissajous.getPlotTime lissajous.defaultParams)
    by (rewrite default_plot_time; lra).
  assert (Hg : 0 < langevin.getPlotTime langevin.defaultParams).
  { unfold langevin.getPlotTime, langevin.defaultParams;
      cbn -[JS.gtb]. js_compare. lra. }
  destruct (simulate_on_grid 2 H2) as [Hliss Hlang].
  split; [exact H2 | split; [exact Hl |]].
  split; [apply (Hliss lissajous.defaultParams 3%nat Hl) |].
  split; [exact Hg | split; [exact every_other_fair |]].
  destruct (Hlang langevin.defaultParams 3%nat every_other 2%nat 0%nat Hg
              every_other_fair) as [trajectories [k' [Hrun [Hlen _]]]].
  exists trajectories, k'. split; [exact Hrun | exact Hlen].
Defined.

Lemma steps_13_2 : lissajous.steps 13 2 = 6%nat.
Proof.
  unfold lissajous.steps, JS.floor.
  rewrite (Zfloor_eq 6 (13 / 2)) by (simpl; lra). reflexivity.
Qed.

(** C4, as stated, fails: with the default parameters of the Lissajous
    model the horizon is 13; with [dt = 2] the samples are taken at
    0, 2, ..., 12 and none at 13. *)
Lemma simulate_stops_before_horizon :
  0 < 2
  /\ lissajous.getPlotTime lissajous.defaultParams = 13
  /\ exists data,
       lissajous.simulate lissajous.defaultParams 2 1%nat = [data]
       /\ times data = [0; 2; 4; 6; 8; 10; 12]
       /\ ~ ends_at (times data)
            (lissajous.getPlotTime lissajous.defaultParams).
Proof.
  split; [lra |]. split; [exact default_plot_time |].
  exists (lissajous.sample_run lissajous.defaultParams 2 13).
  assert (Ht : times (lissajous.sample_run lissajous.defaultParams 2 13)
               = [0; 2; 4; 6; 8; 10; 12]).
  { rewrite sample_run_times, steps_13_2. unfold grid.
    cbn [seq map INR].
    repeat (rewrite Rmin_left by lra).
    repeat (f_equal; try lra). }
  split; [| split; [exact Ht |]].
  - unfold lissajous.simulate. rewrite default_plot_time.
    js_compare. reflexivity.
  - rewrite Ht, default_plot_time. intros [front Hfront].
    assert (Hlast : last [0; 2; 4; 6; 8; 10; 12] 0 = last (front ++ [13]) 0)
      by (rewrite Hfront; reflexivity).
    rewrite last_last in Hlast. cbn in Hlast. lra.
Qed.

(** C9. With [sigma = 0] and [dt > 0] the Langevin [simulate] returns the
    same trajectories whatever the draws: two runs, on any two sequences
    of draws that let the loops end, return the same list, each of whose
    [nSamples] trajectories is the noise-free run. *)
Theorem simulate_without_noise (p : langevin.Params) (dt : R)
  (nSamples : nat) (random1 random2 : nat -> R) (fuel1 fuel2 k1 k2 : nat) :
  langevin.sigma p = 0 ->
  0 < dt ->
  fair random1 fuel1 ->
  fair random2 fuel2 ->
  exists trajectories k1' k2',
    langevin.simulate random1 fuel1 p dt nSamples k1
    = Some (trajectories, k1')
    /\ langevin.simulate random2 fuel2 p dt nSamples k2
       = Some (trajectories, k2')
    /\ Forall (fun data => data = NoiseFree.run p dt) trajectories
    /\ (0 < langevin.getPlotTime p -> List.length trajectories = nSamples).
Proof.
  intros Hs Hdt Hf1 Hf2.
  destruct (Rlt_dec 0 (langevin.getPlotTime p)) as [Hp | Hp].
  - destruct (simulate_noise_free random1 fuel1 Hf1 p dt Hs nSamples k1 Hp)
      as [k1' H1].
    destruct (simulate_noise_free random2 fuel2 Hf2 p dt Hs nSamples k2 Hp)
      as [k2' H2].
    exists (repeat (NoiseFree.run p dt) nSamples), k1', k2'.
    split; [exact H1 | split; [exact H2 |]].
    split; [| intros _; apply repeat_length].
    apply Forall_forall. intros data Hin. apply repeat_spec in Hin. exact Hin.
  - exists [], k1, k2. unfold langevin.simulate. cbv zeta.
    rewrite (proj2 (leb_true _ _)) by lra.
    repeat split; [constructor | intros H; contradiction].
Qed.

Lemma simulate_without_noise_witness :
  let p := langevin.mkParams 0.5 1.0 0 0.1 20.0 in
  langevin.sigma p = 0
  /\ 0 < 2
  /\ fair halves 1
  /\ fair every_other 2
  /\ exists trajectories k1' k2',
       langevin.simulate halves 1%nat p 2 3%nat 0%nat = Some (trajectories, k1')
       /\ langevin.simulate every_other 2%nat p 2 3%nat 0%nat = Some (trajectories, k2').
Proof.
  assert (H2 : 0 < 2) by lra.
  split; [reflexivity | split; [exact H2 |]].
  split; [exact halves_fair | split; [exact every_other_fair |]].
  destruct (simulate_without_noise (langevin.mkParams 0.5 1.0 0 0.1 20.0)
              2 3%nat halves every_other 1%nat 2%nat 0%nat 0%nat eq_refl H2
              halves_fair every_other_fair)
    as [trajectories [k1' [k2' [H1 [H2' _]]]]].
  exists trajectories, k1', k2'. split; [exact H1 | exact H2'].
Defined.

(** ** Point evaluation and the registry *)

(** C7. Whatever the time and the parameters, [langevin.evaluate] throws:
    it returns no data. *)
Theorem langevin_evaluate_throws (time : R) (p : langevin.Params) :
  exists message, langevin.evaluate time p = Throw message
  /\ forall state, langevin.evaluate time p <> Return state.
Proof.
  eexists. split; [reflexivity | intros state H; discriminate H].
Qed.

(** The names the registry answers. *)
Lemma getTrajectory_known :
  getTrajectory "lissajous" = ModelObject Lissajous
  /\ getTrajectory "langevin" = ModelObject Langevin.
Proof. split; reflexivity. Qed.

(** An unknown name that no object inherits gives [null]. *)
Lemma getTrajectory_unknown (id : string) :
  own trajectories id = None ->
  existsb (String.eqb id) Object_prototype = false ->
  getTrajectory id = Null.
Proof.
  intros Hown Hproto. unfold getTrajectory, trajectories_get.
  rewrite Hown, Hproto. reflexivity.
Qed.

(** C8 fails on the code for the names every object inherits:
    [getTrajectory("constructor")] is not one of the model identifiers,
    and the lookup returns the inherited member, not [null]. *)
Theorem getTrajectory_constructor :
  own trajectories "constructor" = None
  /\ getTrajectory "constructor" = Inherited "constructor"
  /\ getTrajectory "constructor" <> Null.
Proof. repeat split. discriminate. Qed.

(** ** The divisor of commensurable numbers *)

Lemma rem_of_multiples (m n : Z) (u : R) :
  (0 <= m)%Z -> (0 < n)%Z -> 0 < u ->
  JS.rem (IZR m * u) (IZR n * u) = IZR (m mod n) * u.
Proof.
  intros Hm Hn Hu. unfold JS.rem, JS.trunc.
  assert (Hn' : 0 < IZR n) by (apply IZR_lt; exact Hn).
  assert (Hm' : 0 <= IZR m) by (apply IZR_le; exact Hm).
  replace (IZR m * u / (IZR n * u)) with (IZR m / IZR n) by (field; lra).
  assert (Hq : 0 <= IZR m / IZR n)
    by (apply Rmult_le_pos; [lra | left; apply Rinv_0_lt_compat; lra]).
  rewrite Rle_dec_true by exact Hq.
  pose proof (Z.div_mod m n ltac:(lia)) as Hdiv.
  pose proof (Z.mod_pos_bound m n Hn) as [Hlo Hhi].
  assert (Hfloor : Zfloor (IZR m / IZR n) = (m / n)%Z).
  { apply Zfloor_eq.
    assert (HR : IZR m = IZR n * IZR (m / n) + IZR (m mod n))
      by (rewrite <- mult_IZR, <- plus_IZR; f_equal; exact Hdiv).
    apply IZR_le in Hlo. apply IZR_lt in Hhi.
    split.
    - apply (Rmult_le_reg_r (IZR n)); [lra |].
      unfold Rdiv. rewrite Rmult_assoc, Rinv_l by lra. lra.
    - apply (Rmult_lt_reg_r (IZR n)); [lra |].
      unfold Rdiv. rewrite Rmult_assoc, Rinv_l by lra. lra. }
  rewrite Hfloor.
  replace (IZR (m mod n)) with (IZR m - IZR n * IZR (m / n)).
  - ring.
  - rewrite <- mult_IZR, <- minus_IZR. f_equal. lia.
Qed.

Lemma gcd_loop_of_multiples (u : R) (n m : Z) :
  tol < u -> (0 <= n)%Z -> (0 <= m)%Z ->
  gcd_loop (IZR m * u) (IZR n * u) = IZR (Z.gcd m n) * u.
Proof.
  intros Hu Hn. revert m.
  assert (Ht : 0 < tol) by (unfold tol; lra).
  pattern n. apply Zlt_0_ind; [| exact Hn]. clear n Hn.
  intros n IH Hn m Hm.
  destruct (Z.eq_dec n 0) as [-> | Hnz].
  - rewrite gcd_loop_exit by (simpl; lra).
    rewrite Z.gcd_0_r, Z.abs_eq by exact Hm. reflexivity.
  - assert (Hn' : 1 <= IZR n) by (apply IZR_le; lia).
    rewrite gcd_loop_step by nra.
    rewrite rem_of_multiples by (lia || lra).
    pose proof (Z.mod_pos_bound m n ltac:(lia)) as [Hlo Hhi].
    rewrite IH by lia.
    rewrite Z.gcd_mod_r, Z.gcd_comm. reflexivity.
Qed.

Lemma gcd_of_multiples (u : R) (m n : Z) :
  tol < u -> gcd (IZR m * u) (IZR n * u) = IZR (Z.gcd m n) * u.
Proof.
  intros Hu. assert (Ht : 0 < tol) by (unfold tol; lra).
  unfold gcd. cbv zeta.
  rewrite !Rabs_mult, !Rabs_Zabs, (Rabs_pos_eq u) by lra.
  destruct (Z.eq_dec m 0) as [-> | Hm].
  - cbn [Z.abs]. rewrite Rmult_0_l, (proj2 (ltb_true 0 tol)) by exact Ht.
    reflexivity.
  - assert (Hm' : 1 <= IZR (Z.abs m)) by (apply IZR_le; lia).
    rewrite (proj2 (ltb_false (IZR (Z.abs m) * u) tol)) by nra.
    destruct (Z.eq_dec n 0) as [-> | Hn].
    + cbn [Z.abs]. rewrite Rmult_0_l, (proj2 (ltb_true 0 tol)) by exact Ht.
      rewrite Z.gcd_0_r. reflexivity.
    + assert (Hn' : 1 <= IZR (Z.abs n)) by (apply IZR_le; lia).
      rewrite (proj2 (ltb_false (IZR (Z.abs n) * u) tol)) by nra.
      rewrite gcd_loop_of_multiples by (lra || lia).
      rewrite Z.gcd_abs_l, Z.gcd_abs_r. reflexivity.
Qed.

Lemma gcdMultiple_from (u : R) (ks : list Z) (g : Z) :
  tol < u ->
  fold_left (fun acc n => gcd acc n) (map (fun k => IZR k * u) ks) (IZR g * u)
  = IZR (fold_left Z.gcd ks g) * u.
Proof.
  intros Hu. revert g.
  induction ks as [| k ks IH]; intros g; cbn [map fold_left]; [reflexivity |].
  rewrite gcd_of_multiples by exact Hu. apply IH.
Qed.



(** ** One cycle of the Lissajous curve *)




Lemma calculateCycleDuration_positive (p : lissajous.Params) :
  lissajous.duration p > 0 -> lissajous.calculateCycleDuration p > 0.
Proof.
  intros Hd. unfold lissajous.calculateCycleDuration. cbv zeta.
  destruct (Nat.eqb (List.length (lissajous.activeFreqs p)) 0); [exact Hd |].
  destruct (JS.ltb (gcdMultiple (lissajous.activeFreqs p)) 1e-9) eqn:Hg;
    [exact Hd |].
  apply ltb_false in Hg.
  apply Rmult_gt_0_compat; [exact Hd |].
  unfold Rdiv. rewrite Rmult_1_l. apply Rinv_0_lt_compat. lra.
Qed.


Lemma evaluate_after_ramp (time : R) (p : lissajous.Params) :
  lissajous.ramp_duration p <= time ->
  let P := (lissajous.ramp_duration p / 2 + (time - lissajous.ramp_duration p))
           * (2 * PI) / lissajous.duration p in
  let D := 2 * PI / lissajous.duration p in
  lissajous.evaluate time p
  = State.mk
      (lissajous.A p * sin (lissajous.a p * P))
      (lissajous.B p * sin (lissajous.b p * P))
      (lissajous.C p * sin (lissajous.c p * P))
      (lissajous.A p * cos (lissajous.a p * P) * lissajous.a p * D)
      (lissajous.B p * cos (lissajous.b p * P) * lissajous.b p * D)
      (lissajous.C p * cos (lissajous.c p * P) * lissajous.c p * D)
      (JS.hypot
         (lissajous.A p * cos (lissajous.a p * P) * lissajous.a p * D)
         (lissajous.B p * cos (lissajous.b p * P) * lissajous.b p * D)
         (lissajous.C p * cos (lissajous.c p * P) * lissajous.c p * D))
      (lissajous.A p * lissajous.a p
       * (- lissajous.a p * sin (lissajous.a p * P) * D * D))
      (lissajous.B p * lissajous.b p
       * (- lissajous.b p * sin (lissajous.b p * P) * D * D))
      (lissajous.C p * lissajous.c p
       * (- lissajous.c p * sin (lissajous.c p * P) * D * D))
      (JS.hypot
         (lissajous.A p * lissajous.a p
          * (- lissajous.a p * sin (lissajous.a p * P) * D * D))
         (lissajous.B p * lissajous.b p
          * (- lissajous.b p * sin (lissajous.b p * P) * D * D))
         (lissajous.C p * lissajous.c p
          * (- lissajous.c p * sin (lissajous.c p * P) * D * D))).
Proof.
  intros Ht P D. subst P D. unfold lissajous.evaluate. cbv zeta.
  rewrite (proj2 (ltb_false time (lissajous.ramp_duration p))) by exact Ht.
  rewrite andb_false_r.
  rewrite Rmin_right, Rmax_right by lra.
  assert (Hprog :
    ((if JS.gtb (lissajous.ramp_duration p) 0
      then lissajous.ramp_duration p / lissajous.ramp_duration p
      else 1) * lissajous.ramp_duration p / 2
     + (time - lissajous.ramp_duration p))
    = lissajous.ramp_duration p / 2 + (time - lissajous.ramp_duration p)).
  { destruct (JS.gtb (lissajous.ramp_duration p) 0) eqn:Hr.
    - apply gtb_true in Hr. field. lra.
    - lra. }
  assert (Hvel :
    2 * PI * (if JS.gtb (lissajous.ramp_duration p) 0
              then lissajous.ramp_duration p / lissajous.ramp_duration p
              else 1)
    = 2 * PI).
  { destruct (JS.gtb (lissajous.ramp_duration p) 0) eqn:Hr.
    - apply gtb_true in Hr. field. lra.
    - lra. }
  rewrite Hprog, Hvel, !Rmult_0_r, !Rplus_0_r. reflexivity.
Qed.



(** ** The tuner: looking a model up *)

(** The two lookups: [select] always finds a model (the first one when no
    model has the id), gives every listed model back under its own id, and
    gives the model [getTrajectory] gives whenever that is a model. *)
Theorem select_finds_a_model (trajectoryId : string) :
  (exists m, app.select trajectoryId = Some m)
  /\ (forall m, app.select (app.id m) = Some m
                /\ getTrajectory (app.id m) = ModelObject m)
  /\ (forall m, getTrajectory trajectoryId = ModelObject m ->
                app.select trajectoryId = Some m /\ trajectoryId = app.id m)
  /\ ((forall m, app.id m <> trajectoryId) ->
      app.select trajectoryId = nth_error app.trajectoryList 0).
Proof.
  split; [| split; [| split]].
  - unfold app.select, app.trajectoryList. cbn [find app.id].
    destruct (String.eqb "lissajous" trajectoryId);
      [| destruct (String.eqb "langevin" trajectoryId)];
      eexists; reflexivity.
  - intros [|]; split; reflexivity.
  - intros m. unfold getTrajectory, trajectories_get, trajectories,
      app.select, app.trajectoryList. cbn [own find app.id].
    destruct (String.eqb "lissajous" trajectoryId) eqn:H1.
    + cbn. intros Hm. injection Hm as <-.
      apply String.eqb_eq in H1. split; [reflexivity | subst; reflexivity].
    + destruct (String.eqb "langevin" trajectoryId) eqn:H2.
      * cbn. intros Hm. injection Hm as <-.
        apply String.eqb_eq in H2. split; [reflexivity | subst; reflexivity].
      * destruct (existsb (String.eqb trajectoryId) Object_prototype);
          cbn; discriminate.
  - intros Hnone. unfold app.select, app.trajectoryList. cbn [find app.id].
    destruct (String.eqb "lissajous" trajectoryId) eqn:H1.
    + apply String.eqb_eq in H1. destruct (Hnone Lissajous). exact H1.
    + destruct (String.eqb "langevin" trajectoryId) eqn:H2; [| reflexivity].
      apply String.eqb_eq in H2. destruct (Hnone Langevin). exact H2.
Qed.

(** ** The tuner: powers of ten *)




(** ** The tuner: the window of the XY plot *)

Lemma lower_below (v : R) (m : option R) : below (app.lower v m) v.
Proof.
  destruct m as [m0 |]; cbn; [| lra].
  destruct (JS.ltb v m0) eqn:H; cbn; [lra | apply ltb_false in H; exact H].
Qed.

Lemma lower_keeps (v w : R) (m : option R) :
  below m w -> below (app.lower v m) w.
Proof.
  destruct m as [m0 |]; cbn; [| intros []].
  intros Hw. destruct (JS.ltb v m0) eqn:H; cbn; [| exact Hw].
  apply ltb_true in H. lra.
Qed.

Lemma raise_above (v : R) (m : option R) : above (app.raise v m) v.
Proof.
  destruct m as [m0 |]; cbn; [| lra].
  destruct (JS.gtb v m0) eqn:H; cbn; [lra | apply gtb_false in H; exact H].
Qed.

Lemma raise_keeps (v w : R) (m : option R) :
  above m w -> above (app.raise v m) w.
Proof.
  destruct m as [m0 |]; cbn; [| intros []].
  intros Hw. destruct (JS.gtb v m0) eqn:H; cbn; [| exact Hw].
  apply gtb_true in H. lra.
Qed.

Lemma visit_encloses (e : app.Extremes) (p : Sample.Sample) :
  encloses (app.visit e p) p.
Proof.
  unfold encloses, app.visit; cbn.
  repeat split; first [apply lower_below | apply raise_above].
Qed.

Lemma visit_keeps (e : app.Extremes) (p q : Sample.Sample) :
  encloses e q -> encloses (app.visit e p) q.
Proof.
  unfold encloses, app.visit; cbn. intros [H1 [H2 [H3 H4]]].
  repeat split; first [apply lower_keeps | apply raise_keeps]; assumption.
Qed.

Lemma visits_keep (traj : list Sample.Sample) (e : app.Extremes)
  (q : Sample.Sample) :
  encloses e q -> encloses (fold_left app.visit traj e) q.
Proof.
  revert e. induction traj as [| p traj IH]; intros e He; cbn; [exact He |].
  apply IH, visit_keeps, He.
Qed.

Lemma visits_enclose (traj : list Sample.Sample) (e : app.Extremes)
  (q : Sample.Sample) :
  In q traj -> encloses (fold_left app.visit traj e) q.
Proof.
  revert e. induction traj as [| p traj IH]; intros e Hq; [destruct Hq |].
  cbn. destruct Hq as [-> | Hq].
  - apply visits_keep, visit_encloses.
  - apply IH, Hq.
Qed.

Lemma extremes_enclose (batch : list (list Sample.Sample))
  (traj : list Sample.Sample) (q : Sample.Sample) :
  In traj batch -> In q traj -> encloses (app.extremes batch) q.
Proof.
  unfold app.extremes. generalize (app.mkExtremes None None None None).
  induction batch as [| traj0 batch IH]; intros e Ht Hq; [destruct Ht |].
  cbn [fold_left]. destruct Ht as [-> | Ht].
  - clear IH.
    assert (He : encloses (fold_left app.visit traj e) q)
      by (apply visits_enclose, Hq).
    revert He. generalize (fold_left app.visit traj e).
    induction batch as [| traj1 batch IH]; intros e1 He; cbn; [exact He |].
    apply IH, visits_keep, He.
  - apply IH; assumption.
Qed.

(** [bounds] returns a window for every batch.  When the first trajectory
    has a sample, the window is a square (both domains have one width)
    and every sample of every trajectory lies strictly inside it; when
    there is no trajectory or the first one is empty, it is
    [[-1, 1] x [-1, 1]]. *)
Theorem bounds_enclose_all (batch : list (list Sample.Sample)) :
  exists d,
    app.bounds batch = Return d
    /\ snd (app.xDomain d) - fst (app.xDomain d)
       = snd (app.yDomain d) - fst (app.yDomain d)
    /\ fst (app.xDomain d) < snd (app.xDomain d)
    /\ ((forall p0 first rest, batch <> (p0 :: first) :: rest) ->
        d = app.mkDomain (-1, 1) (-1, 1))
    /\ ((exists p0 first rest, batch = (p0 :: first) :: rest) ->
        forall traj q, In traj batch -> In q traj ->
          fst (app.xDomain d) < Sample.x q < snd (app.xDomain d)
          /\ fst (app.yDomain d) < Sample.y q < snd (app.yDomain d)).
Proof.
  destruct batch as [| [| p0 first] rest].
  - exists (app.mkDomain (-1, 1) (-1, 1)). cbn.
    split; [reflexivity |]. split; [lra |]. split; [lra |].
    split; [reflexivity |].
    intros [p0 [first [rest H]]]. discriminate H.
  - exists (app.mkDomain (-1, 1) (-1, 1)). cbn.
    split; [reflexivity |]. split; [lra |]. split; [lra |].
    split; [reflexivity |].
    intros [p0 [first [rest' H]]]. discriminate H.
  - set (batch := (p0 :: first) :: rest).
    assert (H0 : encloses (app.extremes batch) p0)
      by (apply (extremes_enclose batch (p0 :: first));
          left; reflexivity).
    assert (Hall : forall traj q, In traj batch -> In q traj ->
                                  encloses (app.extremes batch) q)
      by (intros traj q; apply extremes_enclose).
    unfold app.bounds. fold batch.
    replace (Nat.eqb (List.length batch) 0
             || Nat.eqb (List.length (nth 0 batch [])) 0) with false
      by reflexivity.
    destruct (app.extremes batch) as [[x0 |] [x1 |] [y0 |] [y1 |]];
      unfold encloses in H0; cbn in H0;
      try (exfalso; tauto).
    destruct H0 as [Hx0 [Hx1 [Hy0 Hy1]]].
    set (range := Rmax (x1 - x0) (y1 - y0)).
    set (pad := if JS.gtb range 0 then range * 0.06 else 0.1).
    assert (Hrx : x1 - x0 <= range) by apply Rmax_l.
    assert (Hry : y1 - y0 <= range) by apply Rmax_r.
    assert (Hpad : 0 < pad).
    { subst pad. destruct (JS.gtb range 0) eqn:Hr; [| lra].
      apply gtb_true in Hr. lra. }
    eexists. split; [reflexivity |]. cbn [app.xDomain app.yDomain fst snd].
    fold range. fold pad.
    split; [lra |]. split; [lra |].
    split; [intros Hno; destruct (Hno p0 first rest); reflexivity |].
    intros _ traj q Ht Hq.
    specialize (Hall traj q Ht Hq). unfold encloses in Hall. cbn in Hall.
    lra.
Qed.

(** ** The tuner: the sample under the time cursor *)

Lemma nearer_nearest (t : R) (seen : list Sample.Sample)
  (best : Sample.Sample * R) (p : Sample.Sample) :
  nearest_of t seen best ->
  nearest_of t (seen ++ [p]) (app.nearer t best p).
Proof.
  intros [Hin [Hd Hall]]. unfold app.nearer. cbv zeta.
  destruct (JS.ltb (Rabs (Sample.t p - t)) (snd best)) eqn:Hlt.
  - apply ltb_true in Hlt. cbn [fst snd].
    split; [apply in_or_app; right; left; reflexivity |].
    split; [reflexivity |].
    intros q Hq. apply in_app_or in Hq. destruct Hq as [Hq | [<- | []]].
    + specialize (Hall q Hq). cbn [snd]. lra.
    + cbn [snd]. lra.
  - apply ltb_false in Hlt.
    split; [apply in_or_app; left; exact Hin |].
    split; [exact Hd |].
    intros q Hq. apply in_app_or in Hq. destruct Hq as [Hq | [<- | []]].
    + apply Hall, Hq.
    + exact Hlt.
Qed.

Lemma fold_nearer_nearest (t : R) (traj seen : list Sample.Sample)
  (best : Sample.Sample * R) :
  nearest_of t seen best ->
  nearest_of t (seen ++ traj) (fold_left (app.nearer t) traj best).
Proof.
  revert seen best.
  induction traj as [| p traj IH]; intros seen best Hbest; cbn [fold_left].
  - rewrite app_nil_r. exact Hbest.
  - replace (seen ++ p :: traj) with ((seen ++ [p]) ++ traj)
      by (rewrite <- app_assoc; reflexivity).
    apply IH, nearer_nearest, Hbest.
Qed.

(** [curPosition] shows the origin when there is no trajectory or the
    first one is empty; otherwise it shows a sample of the first
    trajectory, and no sample of that trajectory is nearer in time to the
    cursor [t]. *)
Theorem curPosition_is_nearest (batch : list (list Sample.Sample)) (t : R) :
  match batch with
  | [] => app.curPosition batch t = app.Origin
  | [] :: _ => app.curPosition batch t = app.Origin
  | traj :: _ =>
    exists p, app.curPosition batch t = app.At p
              /\ In p traj
              /\ forall q, In q traj ->
                   Rabs (Sample.t p - t) <= Rabs (Sample.t q - t)
  end.
Proof.
  destruct batch as [| [| first traj] rest]; [reflexivity | reflexivity |].
  assert (H0 : nearest_of t [first] (first, Rabs (Sample.t first - t))).
  { split; [left; reflexivity |]. split; [reflexivity |].
    intros q [<- | []]. cbn. lra. }
  pose proof (fold_nearer_nearest t (first :: traj) [first] _ H0)
    as [Hin [Hd Hall]].
  eexists. split; [reflexivity |].
  split.
  - apply in_app_or in Hin. destruct Hin as [[<- | []] | Hin];
      [left; reflexivity | exact Hin].
  - intros q Hq. rewrite <- Hd. apply Hall.
    apply in_or_app. right. exact Hq.
Qed.

(** ** The Lissajous model: horizon, range and start *)

Lemma getPlotTime_positive (p : lissajous.Params) :
  lissajous.getPlotTime p > 0 <-> lissajous.duration p > 0.
Proof.
  unfold lissajous.getPlotTime.
  destruct (JS.gtb (lissajous.duration p) 0) eqn:Hd; cbn [negb]; cbv zeta.
  - apply gtb_true in Hd. split; [intros _; exact Hd | intros _].
    pose proof (calculateCycleDuration_positive p Hd).
    pose proof (Rmax_l 0 (lissajous.ramp_duration p)). lra.
  - apply gtb_false in Hd. split; intros H; lra.
Qed.

(** The plot horizon of the Lissajous model is positive exactly when
    [duration > 0], and for [dt > 0] [simulate] returns no trajectory
    exactly when [duration <= 0] or no sample is asked for; otherwise it
    returns [nSamples] trajectories of [steps + 1] samples each. *)
Theorem lissajous_simulate_empty (p : lissajous.Params) (dt : R)
  (nSamples : nat) :
  0 < dt ->
  (lissajous.getPlotTime p > 0 <-> lissajous.duration p > 0)
  /\ (lissajous.simulate p dt nSamples = []
      <-> lissajous.duration p <= 0 \/ nSamples = 0%nat)
  /\ (lissajous.duration p > 0 ->
      List.length (lissajous.simulate p dt nSamples) = nSamples
      /\ Forall (fun data =>
                   List.length data
                   = S (lissajous.steps (lissajous.getPlotTime p) dt))
                (lissajous.simulate p dt nSamples)).
Proof.
  intros _. pose proof (getPlotTime_positive p) as Hpos.
  split; [exact Hpos |].
  unfold lissajous.simulate. cbv zeta.
  destruct (JS.leb (lissajous.getPlotTime p) 0) eqn:Hle.
  - apply leb_true in Hle. split.
    + split; [intros _; left | reflexivity].
      destruct (Rle_dec (lissajous.duration p) 0) as [H | H]; [exact H |].
      apply Rnot_le_gt, Hpos in H. lra.
    + intros Hd. apply Hpos in Hd. lra.
  - apply leb_false in Hle. split.
    + split.
      * intros Hnil. right.
        apply (f_equal (@List.length _)) in Hnil.
        rewrite length_map, length_seq in Hnil. exact Hnil.
      * intros [Hd | ->]; [| reflexivity].
        apply Hpos in Hle. lra.
    + intros _. split; [rewrite length_map, length_seq; reflexivity |].
      apply Forall_forall. intros data Hin.
      apply in_map_iff in Hin. destruct Hin as [_ [<- _]].
      unfold lissajous.sample_run. rewrite length_map, length_seq.
      reflexivity.
Qed.

Lemma lissajous_simulate_empty_witness :
  0 < 2
  /\ lissajous.duration lissajous.defaultParams > 0
  /\ List.length (lissajous.simulate lissajous.defaultParams 2 3%nat) = 3%nat.
Proof.
  assert (H2 : 0 < 2) by lra.
  assert (H : lissajous.duration lissajous.defaultParams > 0)
    by (cbn; lra).
  split; [exact H2 | split; [exact H |]].
  apply (lissajous_simulate_empty lissajous.defaultParams 2 3%nat H2), H.
Defined.

Lemma calculateCycleDuration_linear (p : lissajous.Params) :
  exists m, 0 < m
            /\ forall d, lissajous.calculateCycleDuration (with_duration p d)
                         = d * m.
Proof.
  unfold lissajous.calculateCycleDuration. cbv zeta.
  assert (Hact : forall d, lissajous.activeFreqs (with_duration p d)
                           = lissajous.activeFreqs p) by reflexivity.
  destruct (Nat.eqb (List.length (lissajous.activeFreqs p)) 0) eqn:Hlen.
  - exists 1. split; [lra |]. intros d. rewrite Hact, Hlen. cbn. lra.
  - destruct (JS.ltb (gcdMultiple (lissajous.activeFreqs p)) 1e-9) eqn:Hg.
    + exists 1. split; [lra |]. intros d. rewrite Hact, Hlen, Hg. cbn. lra.
    + exists (1 / gcdMultiple (lissajous.activeFreqs p)).
      apply ltb_false in Hg. split.
      * unfold Rdiv. rewrite Rmult_1_l. apply Rinv_0_lt_compat. lra.
      * intros d. rewrite Hact, Hlen.
        rewrite (proj2 (ltb_false _ _)) by exact Hg. reflexivity.
Qed.

(** With the other parameters fixed, the plot horizon of the Lissajous
    model does not decrease when [duration] grows. *)
Theorem getPlotTime_monotone (p : lissajous.Params) (d1 d2 : R) :
  d1 <= d2 ->
  lissajous.getPlotTime (with_duration p d1)
  <= lissajous.getPlotTime (with_duration p d2).
Proof.
  intros Hd.
  destruct (calculateCycleDuration_linear p) as [m [Hm Hlin]].
  unfold lissajous.getPlotTime. rewrite !Hlin.
  cbn [with_duration lissajous.duration lissajous.ramp_duration].
  pose proof (Rmax_l 0 (lissajous.ramp_duration p)) as Hramp.
  destruct (JS.gtb d1 0) eqn:H1; destruct (JS.gtb d2 0) eqn:H2; cbn [negb];
    cbv zeta;
    try apply gtb_true in H1; try apply gtb_false in H1;
    try apply gtb_true in H2; try apply gtb_false in H2;
    try nra.
Qed.

Lemma getPlotTime_monotone_witness :
  5 <= 10
  /\ lissajous.getPlotTime (with_duration lissajous.defaultParams 5)
     <= lissajous.getPlotTime (with_duration lissajous.defaultParams 10).
Proof.
  assert (H : 5 <= 10) by lra. split; [exact H |].
  apply (getPlotTime_monotone lissajous.defaultParams 5 10), H.
Defined.

Lemma amplitude_bounds (amplitude phase : R) :
  Rabs (amplitude * sin phase) <= Rabs amplitude.
Proof.
  rewrite Rabs_mult.
  assert (Hs : Rabs (sin phase) <= 1)
    by (apply Rabs_le; pose proof (SIN_bound phase); lra).
  pose proof (Rabs_pos amplitude). nra.
Qed.

(** At every time and for every parameter set with a duration that is
    not zero the position stays in the box of the amplitudes:
    [|x| <= |A|], [|y| <= |B|], [|z| <= |C|]. *)
Theorem position_within_amplitudes (time : R) (p : lissajous.Params) :
  lissajous.duration p <> 0 ->
  Rabs (State.x (lissajous.evaluate time p)) <= Rabs (lissajous.A p)
  /\ Rabs (State.y (lissajous.evaluate time p)) <= Rabs (lissajous.B p)
  /\ Rabs (State.z (lissajous.evaluate time p)) <= Rabs (lissajous.C p).
Proof.
  intros _. unfold lissajous.evaluate. cbn [State.x State.y State.z].
  repeat split; apply amplitude_bounds.
Qed.

Lemma position_within_amplitudes_witness :
  lissajous.duration lissajous.defaultParams <> 0
  /\ Rabs (State.x (lissajous.evaluate 4 lissajous.defaultParams))
     <= Rabs (lissajous.A lissajous.defaultParams).
Proof.
  assert (H : lissajous.duration lissajous.defaultParams <> 0)
    by (cbn; lra).
  split; [exact H |].
  apply (position_within_amplitudes 4 lissajous.defaultParams H).
Defined.

Lemma hypot_zero : JS.hypot 0 0 0 = 0.
Proof.
  unfold JS.hypot. replace (0 * 0 + 0 * 0 + 0 * 0) with 0 by ring.
  apply sqrt_0.
Qed.

Lemma speed_at_start_with_ramp (p : lissajous.Params) :
  lissajous.ramp_duration p > 0 ->
  State.speed (lissajous.evaluate 0 p) = 0.
Proof.
  intros Hr. unfold lissajous.evaluate. cbv zeta. cbn [State.speed].
  rewrite (proj2 (gtb_true _ _)) by exact Hr.
  rewrite Rmin_left by lra.
  replace (2 * PI * (0 / lissajous.ramp_duration p) / lissajous.duration p)
    with 0 by (unfold Rdiv; ring).
  rewrite !Rmult_0_r. apply hypot_zero.
Qed.

(** With a ramp ([ramp_duration > 0]) and a duration that is not zero
    the curve starts at rest at the origin: at [t = 0] position, velocity
    and speed are zero. *)
Theorem starts_at_rest (p : lissajous.Params) :
  lissajous.duration p <> 0 ->
  lissajous.ramp_duration p > 0 ->
  let s := lissajous.evaluate 0 p in
  State.x s = 0 /\ State.y s = 0 /\ State.z s = 0
  /\ State.vx s = 0 /\ State.vy s = 0 /\ State.vz s = 0
  /\ State.speed s = 0.
Proof.
  intros _ Hr. unfold lissajous.evaluate. cbv zeta.
  cbn [State.x State.y State.z State.vx State.vy State.vz State.speed].
  rewrite (proj2 (gtb_true _ _)) by exact Hr.
  rewrite Rmin_left, Rmax_left by lra.
  replace (0 / lissajous.ramp_duration p) with 0 by (unfold Rdiv; ring).
  replace ((0 * 0 / 2 + 0) * (2 * PI) / lissajous.duration p) with 0
    by (unfold Rdiv; ring).
  replace (2 * PI * 0 / lissajous.duration p) with 0 by (unfold Rdiv; ring).
  rewrite !Rmult_0_r, sin_0, !Rmult_0_r, hypot_zero.
  repeat split.
Qed.

Lemma starts_at_rest_witness :
  lissajous.duration lissajous.defaultParams <> 0
  /\ lissajous.ramp_duration lissajous.defaultParams > 0
  /\ State.speed (lissajous.evaluate 0 lissajous.defaultParams) = 0.
Proof.
  assert (Hd : lissajous.duration lissajous.defaultParams <> 0)
    by (cbn; lra).
  assert (H : lissajous.ramp_duration lissajous.defaultParams > 0)
    by (cbn; lra).
  split; [exact Hd | split; [exact H |]].
  apply (starts_at_rest lissajous.defaultParams Hd H).
Defined.

Lemma speed_at_start_without_ramp (p : lissajous.Params) :
  lissajous.ramp_duration p = 0 ->
  State.speed (lissajous.evaluate 0 p)
  = JS.hypot
      (lissajous.A p * lissajous.a p * (2 * PI / lissajous.duration p))
      (lissajous.B p * lissajous.b p * (2 * PI / lissajous.duration p))
      (lissajous.C p * lissajous.c p * (2 * PI / lissajous.duration p)).
Proof.
  intros Hr. unfold lissajous.evaluate. cbv zeta. cbn [State.speed].
  rewrite Hr. rewrite (proj2 (gtb_false 0 0)) by lra.
  rewrite Rmin_left, Rmax_left by lra.
  replace ((1 * 0 / 2 + 0) * (2 * PI) / lissajous.duration p) with 0
    by (unfold Rdiv; ring).
  rewrite !Rmult_0_r, cos_0. f_equal; unfold Rdiv; ring.
Qed.

(** When the ramp is not negative and the duration is not zero,
    [hasSingularity] is true exactly when the speed that [evaluate] gives
    at [t = 0] exceeds [1e-9]: the flag says that the curve does not start
    at rest. *)
Theorem hasSingularity_is_initial_speed (p : lissajous.Params) :
  lissajous.duration p <> 0 ->
  0 <= lissajous.ramp_duration p ->
  (lissajous.hasSingularity p = true
   <-> State.speed (lissajous.evaluate 0 p) > 1e-9).
Proof.
  intros _ Hr. unfold lissajous.hasSingularity.
  destruct (JS.gtb (lissajous.ramp_duration p) 0) eqn:Hg.
  - apply gtb_true in Hg.
    rewrite (speed_at_start_with_ramp p Hg). split; [discriminate | intros H; lra].
  - apply gtb_false in Hg. cbv zeta.
    rewrite speed_at_start_without_ramp by lra.
    apply gtb_true.
Qed.

Lemma hasSingularity_is_initial_speed_witness :
  lissajous.duration lissajous.defaultParams <> 0
  /\ 0 <= lissajous.ramp_duration lissajous.defaultParams
  /\ (lissajous.hasSingularity lissajous.defaultParams = true
      <-> State.speed (lissajous.evaluate 0 lissajous.defaultParams) > 1e-9).
Proof.
  assert (Hd : lissajous.duration lissajous.defaultParams <> 0)
    by (cbn; lra).
  assert (H : 0 <= lissajous.ramp_duration lissajous.defaultParams)
    by (cbn; lra).
  split; [exact Hd | split; [exact H |]].
  apply (hasSingularity_is_initial_speed lissajous.defaultParams Hd H).
Defined.

(** ** The Lissajous model: velocity and acceleration as derivatives *)

Lemma quadratic_derivative (c2 c1 c0 t : R) :
  derivable_pt_lim (fun s => c2 * s * s + c1 * s + c0) t (2 * c2 * t + c1).
Proof.
  apply (derivable_pt_lim_ext
           (plus_fct (plus_fct (mult_real_fct c2 (mult_fct id id))
                               (mult_real_fct c1 id))
                     (fct_cte c0))).
  - intros z. unfold plus_fct, mult_real_fct, mult_fct, fct_cte, id. ring.
  - replace (2 * c2 * t + c1) with (c2 * (1 * id t + id t * 1) + c1 * 1 + 0)
      by (unfold id; ring).
    apply derivable_pt_lim_plus; [apply derivable_pt_lim_plus |].
    + apply derivable_pt_lim_scal, derivable_pt_lim_mult;
        apply derivable_pt_lim_id.
    + apply derivable_pt_lim_scal, derivable_pt_lim_id.
    + apply derivable_pt_lim_const.
Qed.

Lemma sine_of_phase_derivative (amp f : R) (q : R -> R) (t q' : R) :
  derivable_pt_lim q t q' ->
  derivable_pt_lim (fun s => amp * sin (f * q s)) t
    (amp * cos (f * q t) * f * q').
Proof.
  intros Hq.
  apply (derivable_pt_lim_ext
           (mult_real_fct amp (comp sin (mult_real_fct f q)))).
  - intros z. reflexivity.
  - replace (amp * cos (f * q t) * f * q')
      with (amp * (cos (mult_real_fct f q t) * (f * q')))
      by (unfold mult_real_fct; ring).
    apply derivable_pt_lim_scal, derivable_pt_lim_comp.
    + apply derivable_pt_lim_scal, Hq.
    + apply derivable_pt_lim_sin.
Qed.

Lemma velocity_of_phase_derivative (amp f : R) (q r : R -> R) (t q' r' : R) :
  derivable_pt_lim q t q' ->
  derivable_pt_lim r t r' ->
  derivable_pt_lim (fun s => amp * cos (f * q s) * f * r s) t
    (amp * f * (- f * sin (f * q t) * q' * r t + cos (f * q t) * r')).
Proof.
  intros Hq Hr.
  apply (derivable_pt_lim_ext
           (mult_real_fct (amp * f)
              (mult_fct (comp cos (mult_real_fct f q)) r))).
  - intros z. unfold mult_real_fct, mult_fct, comp. ring.
  - replace (- f * sin (f * q t) * q' * r t + cos (f * q t) * r')
      with ((- sin (mult_real_fct f q t) * (f * q')) * r t
            + comp cos (mult_real_fct f q) t * r')
      by (unfold mult_real_fct, comp; ring).
    apply derivable_pt_lim_scal, derivable_pt_lim_mult; [| exact Hr].
    apply derivable_pt_lim_comp.
    + apply derivable_pt_lim_scal, Hq.
    + apply derivable_pt_lim_cos.
Qed.

Lemma evaluate_in_ramp (s : R) (p : lissajous.Params) :
  lissajous.duration p > 0 ->
  s < lissajous.ramp_duration p -> 0 < lissajous.ramp_duration p ->
  lissajous.evaluate s p
  = kinematics p (ramp_c2 p * s * s + 0 * s + 0) (2 * ramp_c2 p * s + 0)
      (2 * ramp_c2 p).
Proof.
  intros Hd Hs Hr. unfold lissajous.evaluate, kinematics, ramp_c2. cbv zeta.
  rewrite (proj2 (gtb_true _ _)) by exact Hr.
  rewrite (proj2 (ltb_true _ _)) by exact Hs.
  cbn [andb]. rewrite Rmin_left, Rmax_left by lra.
  replace ((s / lissajous.ramp_duration p * s / 2 + 0) * (2 * PI)
           / lissajous.duration p)
    with (PI / (lissajous.ramp_duration p * lissajous.duration p) * s * s
          + 0 * s + 0)
    by (field; lra).
  replace (2 * PI * (s / lissajous.ramp_duration p) / lissajous.duration p)
    with (2 * (PI / (lissajous.ramp_duration p * lissajous.duration p)) * s
          + 0)
    by (field; lra).
  replace (2 * PI / (lissajous.ramp_duration p * lissajous.duration p))
    with (2 * (PI / (lissajous.ramp_duration p * lissajous.duration p)))
    by (field; lra).
  reflexivity.
Qed.

Lemma evaluate_in_cruise (s : R) (p : lissajous.Params) :
  lissajous.duration p > 0 ->
  lissajous.ramp_duration p <= s ->
  lissajous.evaluate s p
  = kinematics p (0 * s * s + cruise_c1 p * s + cruise_c0 p)
      (2 * 0 * s + cruise_c1 p) (2 * 0).
Proof.
  intros Hd Hs. rewrite evaluate_after_ramp by exact Hs.
  unfold kinematics, cruise_c1, cruise_c0. cbv zeta.
  replace ((lissajous.ramp_duration p / 2 + (s - lissajous.ramp_duration p))
           * (2 * PI) / lissajous.duration p)
    with (0 * s * s + 2 * PI / lissajous.duration p * s
          + - (lissajous.ramp_duration p / 2)
            * (2 * PI / lissajous.duration p))
    by (field; lra).
  replace (2 * 0 * s + 2 * PI / lissajous.duration p)
    with (2 * PI / lissajous.duration p) by ring.
  rewrite !Rmult_0_r, !Rplus_0_r. reflexivity.
Qed.

(** Around a time that is not the end of the ramp the state is the
    kinematics of one quadratic phase. *)
Lemma evaluate_locally (t : R) (p : lissajous.Params) :
  lissajous.duration p > 0 ->
  (t < lissajous.ramp_duration p /\ 0 < lissajous.ramp_duration p)
  \/ lissajous.ramp_duration p < t ->
  exists c2 c1 c0 lo hi,
    lo < t < hi
    /\ forall s, lo < s < hi ->
         lissajous.evaluate s p
         = kinematics p (c2 * s * s + c1 * s + c0) (2 * c2 * s + c1) (2 * c2).
Proof.
  intros Hd [[Ht Hr] | Ht].
  - exists (ramp_c2 p), 0, 0, (t - 1), (lissajous.ramp_duration p).
    split; [lra |]. intros s Hs. apply evaluate_in_ramp; lra.
  - exists 0, (cruise_c1 p), (cruise_c0 p), (lissajous.ramp_duration p), (t + 1).
    split; [lra |]. intros s Hs. apply evaluate_in_cruise; lra.
Qed.

(** The derivatives of a quadratic phase and of its slope. *)
Lemma phase_derivatives (c2 c1 c0 t : R) :
  derivable_pt_lim (fun s => c2 * s * s + c1 * s + c0) t (2 * c2 * t + c1)
  /\ derivable_pt_lim (fun s => 2 * c2 * s + c1) t (2 * c2).
Proof.
  split; [apply quadratic_derivative |].
  pose proof (quadratic_derivative 0 (2 * c2) c1 t) as Hq.
  replace (2 * 0 * t + 2 * c2) with (2 * c2) in Hq by ring.
  eapply derivable_pt_lim_ext; [| exact Hq]. intros z. cbv beta. ring.
Qed.

(** Away from the end of the ramp (and, when there is no ramp, after it)
    the velocity that [evaluate] returns is the time derivative of the
    position it returns, on each axis. *)
Theorem velocity_is_derivative (t : R) (p : lissajous.Params) :
  lissajous.duration p > 0 ->
  (t < lissajous.ramp_duration p /\ 0 < lissajous.ramp_duration p)
  \/ lissajous.ramp_duration p < t ->
  derivable_pt_lim (fun s => State.x (lissajous.evaluate s p)) t
    (State.vx (lissajous.evaluate t p))
  /\ derivable_pt_lim (fun s => State.y (lissajous.evaluate s p)) t
       (State.vy (lissajous.evaluate t p))
  /\ derivable_pt_lim (fun s => State.z (lissajous.evaluate s p)) t
       (State.vz (lissajous.evaluate t p)).
Proof.
  intros Hd Hregion.
  destruct (evaluate_locally t p Hd Hregion)
    as [c2 [c1 [c0 [lo [hi [Ht Hlocal]]]]]].
  destruct (phase_derivatives c2 c1 c0 t) as [Hq _].
  rewrite (Hlocal t Ht).
  unfold kinematics. cbv zeta. cbn [State.vx State.vy State.vz].
  split; [| split].
  all: eapply (derivable_pt_lim_locally_ext _ _ t lo hi); [exact Ht | |].
  all: try (intros z Hz; rewrite (Hlocal z Hz); reflexivity).
  all: apply (sine_of_phase_derivative _ _ _ _ _ Hq).
Qed.

Lemma velocity_is_derivative_witness :
  lissajous.duration lissajous.defaultParams > 0
  /\ 1 < lissajous.ramp_duration lissajous.defaultParams
  /\ derivable_pt_lim
       (fun s => State.x (lissajous.evaluate s lissajous.defaultParams)) 1
       (State.vx (lissajous.evaluate 1 lissajous.defaultParams)).
Proof.
  assert (Hd : lissajous.duration lissajous.defaultParams > 0) by (cbn; lra).
  assert (Hr : 1 < lissajous.ramp_duration lissajous.defaultParams)
    by (cbn; lra).
  split; [exact Hd | split; [exact Hr |]].
  apply (velocity_is_derivative 1 lissajous.defaultParams Hd).
  left. split; [exact Hr | lra].
Defined.

(** Under the same conditions the acceleration that [evaluate] returns is
    the time derivative of the velocity it returns, on each axis. *)
Theorem acceleration_is_derivative (t : R) (p : lissajous.Params) :
  lissajous.duration p > 0 ->
  (t < lissajous.ramp_duration p /\ 0 < lissajous.ramp_duration p)
  \/ lissajous.ramp_duration p < t ->
  derivable_pt_lim (fun s => State.vx (lissajous.evaluate s p)) t
    (State.ax (lissajous.evaluate t p))
  /\ derivable_pt_lim (fun s => State.vy (lissajous.evaluate s p)) t
       (State.ay (lissajous.evaluate t p))
  /\ derivable_pt_lim (fun s => State.vz (lissajous.evaluate s p)) t
       (State.az (lissajous.evaluate t p)).
Proof.
  intros Hd Hregion.
  destruct (evaluate_locally t p Hd Hregion)
    as [c2 [c1 [c0 [lo [hi [Ht Hlocal]]]]]].
  destruct (phase_derivatives c2 c1 c0 t) as [Hq Hq'].
  rewrite (Hlocal t Ht).
  unfold kinematics. cbv zeta. cbn [State.ax State.ay State.az].
  split; [| split].
  all: eapply (derivable_pt_lim_locally_ext _ _ t lo hi); [exact Ht | |].
  all: try (intros z Hz; rewrite (Hlocal z Hz); reflexivity).
  all: replace (2 * c2 * t + c1) with ((fun s => 2 * c2 * s + c1) t) at 2
    by reflexivity.
  all: apply (velocity_of_phase_derivative _ _ _ _ _ _ _ Hq Hq').
Qed.

Lemma acceleration_is_derivative_witness :
  lissajous.duration lissajous.defaultParams > 0
  /\ lissajous.ramp_duration lissajous.defaultParams < 5
  /\ derivable_pt_lim
       (fun s => State.vx (lissajous.evaluate s lissajous.defaultParams)) 5
       (State.ax (lissajous.evaluate 5 lissajous.defaultParams)).
Proof.
  assert (Hd : lissajous.duration lissajous.defaultParams > 0) by (cbn; lra).
  assert (Hr : lissajous.ramp_duration lissajous.defaultParams < 5)
    by (cbn; lra).
  split; [exact Hd | split; [exact Hr |]].
  apply (acceleration_is_derivative 5 lissajous.defaultParams Hd).
  right. exact Hr.
Defined.

(** On whole multiples of a unit [u] above the tolerance, [gcd] and
    [gcdMultiple] return the exact greatest common divisor: the divisor of
    the whole numbers, times [u]. *)
Theorem gcd_exact_on_multiples (u : R) (m n : Z) (ks : list Z) :
  tol < u ->
  gcd (IZR m * u) (IZR n * u) = IZR (Z.gcd m n) * u
  /\ gcdMultiple (map (fun k => IZR k * u) ks)
     = IZR (fold_left Z.gcd ks 0%Z) * u.
Proof.
  intros Hu. split; [apply gcd_of_multiples, Hu |].
  unfold gcdMultiple.
  pose proof (gcdMultiple_from u ks 0%Z Hu) as H.
  rewrite Rmult_0_l in H. exact H.
Qed.

Lemma gcd_exact_on_multiples_witness :
  tol < 0.25
  /\ gcd (IZR 6 * 0.25) (IZR 4 * 0.25) = 0.5
  /\ gcdMultiple (map (fun k => IZR k * 0.25) [8; 4; 4]%Z) = 1.
Proof.
  assert (Hu : tol < 0.25) by (unfold tol; lra).
  split; [exact Hu |].
  destruct (gcd_exact_on_multiples 0.25 6 4 [8; 4; 4]%Z Hu) as [H1 H2].
  split.
  - rewrite H1. cbn. lra.
  - rewrite H2. cbn. lra.
Defined.

(** ** Statistics of a simulated batch *)

Lemma Forall2_of_nth_error {A B : Type} (P : A -> B -> Prop)
  (l : list A) (out : list B) :
  List.length l = List.length out ->
  (forall i a b, nth_error l i = Some a -> nth_error out i = Some b -> P a b) ->
  Forall2 P l out.
Proof.
  revert out. induction l as [| a l IH]; intros [| b out] Hlen Hnth;
    cbn in Hlen; try discriminate; constructor.
  - apply (Hnth 0%nat); reflexivity.
  - apply IH; [lia |]. intros i a' b' Ha Hb. apply (Hnth (S i)); assumption.
Qed.

(** [computeStats] returns on every batch, with one record per sample of
    the first trajectory, each carrying the time of its sample. *)
Lemma computeStats_returns (batch : list (list Sample.Sample)) :
  exists out,
    computeStats batch = Return out
    /\ Forall2 (fun point r => field "t" r = Some (Sample.t point))
               (nth 0 batch []) out.
Proof.
  destruct batch as [| first [| second rest]].
  - exists []. split; [reflexivity | constructor].
  - exists (map single first). split; [reflexivity |]. cbn [nth].
    induction first as [| point first IH]; cbn; constructor;
      [reflexivity | exact IH].
  - destruct (computeStats_many first (second :: rest)) as [out [Hout Hall]];
      [discriminate |].
    exists out. split; [exact Hout |]. cbn [nth].
    apply Forall2_of_nth_error.
    + rewrite <- (Forall2_length Hall), length_seq. reflexivity.
    + intros i point r Hp Hr.
      assert (Hlt : (i < List.length first)%nat)
        by (apply nth_error_Some; congruence).
      destruct (Forall2_nth_error_l _ _ _ i i Hall (nth_error_seq_0 _ _ Hlt))
        as [r' [Hr' [[p0 [Hp0 Ht]] _]]].
      cbn [nth] in Hp0. congruence.
Qed.

Lemma record_times_of (first : list Sample.Sample) (out : list StatRecord) :
  Forall2 (fun point r => field "t" r = Some (Sample.t point)) first out ->
  record_times out = map Some (times first).
Proof.
  unfold record_times, times.
  induction 1 as [| point r first out Ht _ IH]; cbn; [reflexivity |].
  rewrite Ht, IH. reflexivity.
Qed.

(** With [dt > 0], feeding what [simulate] returns to [computeStats]
    never throws, for either model and any number of samples; with a
    positive horizon and at least one sample, the records are as many as
    the samples of a trajectory and their times are the time grid. *)
Theorem stats_of_simulation (dt : R) (nSamples : nat) :
  0 < dt ->
  (forall p : lissajous.Params,
      exists out,
        computeStats (lissajous.simulate p dt nSamples) = Return out
        /\ (0 < lissajous.getPlotTime p -> (1 <= nSamples)%nat ->
            record_times out
            = map Some (grid (lissajous.steps (lissajous.getPlotTime p) dt)
                             dt (lissajous.getPlotTime p))))
  /\ (forall (p : langevin.Params) (random : nat -> R) (fuel k : nat),
         fair random fuel ->
         exists trajectories k' out,
           langevin.simulate random fuel p dt nSamples k
           = Some (trajectories, k')
           /\ computeStats trajectories = Return out
           /\ (0 < langevin.getPlotTime p -> (1 <= nSamples)%nat ->
               record_times out
               = map Some (grid (langevin.steps (langevin.getPlotTime p) dt)
                                dt (langevin.getPlotTime p)))).
Proof.
  intros _. split.
  - intros p.
    destruct (computeStats_returns (lissajous.simulate p dt nSamples))
      as [out [Hout Ht]].
    exists out. split; [exact Hout |]. intros Hp Hn.
    rewrite (record_times_of _ _ Ht).
    unfold lissajous.simulate. cbv zeta.
    rewrite (proj2 (leb_false _ _)) by exact Hp.
    destruct nSamples as [| n]; [lia |]. cbn [seq map nth].
    rewrite sample_run_times. reflexivity.
  - intros p random fuel k Hfair.
    destruct (Rlt_dec 0 (langevin.getPlotTime p)) as [Hp | Hp].
    + destruct (simulate_times random fuel Hfair p dt nSamples k Hp)
        as [trajectories [k' [Hrun [Hlen Hall]]]].
      destruct (computeStats_returns trajectories) as [out [Hout Ht]].
      exists trajectories, k', out.
      split; [exact Hrun | split; [exact Hout |]]. intros _ Hn.
      rewrite (record_times_of _ _ Ht).
      destruct trajectories as [| first rest]; [cbn in Hlen; lia |].
      cbn [nth]. inversion Hall as [| ? ? Hfirst _]; subst.
      rewrite Hfirst. reflexivity.
    + exists [], k, []. unfold langevin.simulate. cbv zeta.
      rewrite (proj2 (leb_true _ _)) by lra.
      split; [reflexivity | split; [reflexivity |]].
      intros H; contradiction.
Qed.

Lemma stats_of_simulation_witness :
  0 < 2
  /\ fair every_other 2
  /\ exists trajectories k' out,
       langevin.simulate every_other 2%nat langevin.defaultParams 2 3%nat 0%nat
       = Some (trajectories, k')
       /\ computeStats trajectories = Return out.
Proof.
  assert (H2 : 0 < 2) by lra.
  split; [exact H2 | split; [exact every_other_fair |]].
  destruct (stats_of_simulation 2 3%nat H2) as [_ Hlang].
  destruct (Hlang langevin.defaultParams every_other 2%nat 0%nat
              every_other_fair) as [trajectories [k' [out [Hrun [Hout _]]]]].
  exists trajectories, k', out. split; [exact Hrun | exact Hout].
Defined.

(** ** Statistics of identical trajectories *)









(** ** The Langevin model: what every run keeps *)

Lemma adjacent_snoc {A : Type} (R : A -> A -> Prop) (front : list A)
  (last new : A) :
  adjacent R (front ++ [last]) -> R last new ->
  adjacent R ((front ++ [last]) ++ [new]).
Proof.
  intros Hadj Hnew i a b Ha Hb.
  assert (Hlen : List.length (front ++ [last]) = S (List.length front))
    by (rewrite length_app; cbn; lia).
  destruct (Nat.lt_ge_cases (S i) (List.length (front ++ [last]))) as [Hi | Hi].
  - rewrite nth_error_app1 in Ha by lia.
    rewrite nth_error_app1 in Hb by lia.
    apply (Hadj i); assumption.
  - assert (Hb' : (S i < List.length ((front ++ [last]) ++ [new]))%nat)
      by (apply nth_error_Some; congruence).
    rewrite length_app in Hb'. cbn in Hb'.
    assert (i = List.length front) by lia. subst i.
    rewrite nth_error_app1 in Ha by lia.
    rewrite nth_error_app2 in Ha by lia.
    rewrite Nat.sub_diag in Ha. cbn in Ha. injection Ha as <-.
    rewrite nth_error_app2 in Hb by lia.
    rewrite Hlen, Nat.sub_diag in Hb. cbn in Hb. injection Hb as <-.
    exact Hnew.
Qed.

Lemma foldM_invariant {A S : Type} (body : A -> S -> langevin.Rand S)
  (I : S -> Prop) (l : list A) :
  (forall i s k, I s -> exists s' k', body i s k = Some (s', k') /\ I s') ->
  forall s k, I s ->
    exists s' k', langevin.foldM body l s k = Some (s', k') /\ I s'.
Proof.
  intros Hbody. induction l as [| i l IH]; intros s k Hs; cbn [langevin.foldM].
  - exists s, k. split; [reflexivity | exact Hs].
  - destruct (Hbody i s k Hs) as [s1 [k1 [H1 Hs1]]].
    destruct (IH s1 k1 Hs1) as [s2 [k2 [H2 Hs2]]].
    exists s2, k2. unfold langevin.bind. rewrite H1. split; assumption.
Qed.

(** After the three updates of a step, the new position is the old one
    plus the new velocity times [dt], on each axis. *)
Lemma advances_move (p : langevin.Params) (dt sqrt_dt omega2 : R)
  (w : langevin.Work) (n0 n1 n2 x y z vx vy vz : R) :
  langevin.pos w = [x; y; z] ->
  langevin.vel w = [vx; vy; vz] ->
  exists vx' vy' vz',
    langevin.vel
      (langevin.advance p dt sqrt_dt omega2 2
         (langevin.advance p dt sqrt_dt omega2 1
            (langevin.advance p dt sqrt_dt omega2 0 w n0) n1) n2)
    = [vx'; vy'; vz']
    /\ langevin.pos
         (langevin.advance p dt sqrt_dt omega2 2
            (langevin.advance p dt sqrt_dt omega2 1
               (langevin.advance p dt sqrt_dt omega2 0 w n0) n1) n2)
       = [x + vx' * dt; y + vy' * dt; z + vz' * dt].
Proof.
  destruct w as [pr vr ps vl]. cbn [langevin.pos langevin.vel].
  intros -> ->.
  unfold langevin.advance.
  cbn [langevin.pos langevin.vel langevin.pos_raw langevin.vel_raw
       langevin.set langevin.get nth].
  eexists _, _, _. split; reflexivity.
Qed.

Section Kept.

Import langevin.

Variable random : nat -> R.
Variable fuel : nat.
Hypothesis random_fair : fair random fuel.

Variable p : Params.
Variable dt : R.

Lemma dims_advance (sqrt_dt omega2 : R) (w : Work) (k : nat) :
  exists n0 n1 n2 k',
    foldM (update_dim random fuel p dt sqrt_dt omega2) [0; 1; 2]%nat w k
    = Some (advance p dt sqrt_dt omega2 2
              (advance p dt sqrt_dt omega2 1
                 (advance p dt sqrt_dt omega2 0 w n0) n1) n2, k').
Proof.
  cbn [foldM]. unfold bind.
  destruct (update_dim_returns random fuel random_fair p dt sqrt_dt omega2
              0 w k) as [n0 [k0 ->]].
  destruct (update_dim_returns random fuel random_fair p dt sqrt_dt omega2
              1 (advance p dt sqrt_dt omega2 0 w n0) k0) as [n1 [k1 ->]].
  destruct (update_dim_returns random fuel random_fair p dt sqrt_dt omega2
              2 (advance p dt sqrt_dt omega2 1
                   (advance p dt sqrt_dt omega2 0 w n0) n1) k1)
    as [n2 [k2 ->]].
  exists n0, n1, n2, k2. reflexivity.
Qed.

Lemma step_keeps (sqrt_dt omega2 plotTime : R) (i : nat)
  (st : Work * list Sample.Sample) (k : nat) :
  in_step dt st ->
  exists st' k',
    step random fuel p dt sqrt_dt omega2 plotTime i st k = Some (st', k')
    /\ in_step dt st'.
Proof.
  intros [front [last [Hdata [Hvel [Hpos [Hadj Hhd]]]]]].
  unfold step, bind. cbv zeta.
  destruct (dims_advance sqrt_dt omega2 (fst st) k)
    as [n0 [n1 [n2 [k' ->]]]].
  destruct (advances_move p dt sqrt_dt omega2 (fst st) n0 n1 n2 _ _ _ _ _ _
              Hpos Hvel) as [vx' [vy' [vz' [Hvel' Hpos']]]].
  eexists _, k'. split; [reflexivity |].
  unfold in_step. cbn [fst snd].
  eexists (snd st), _. split; [reflexivity |].
  unfold sample_of. cbv zeta. rewrite Hvel', Hpos', Hvel.
  cbn [get nth Sample.vx Sample.vy Sample.vz Sample.x Sample.y Sample.z].
  split; [reflexivity | split; [reflexivity |]].
  split.
  - rewrite Hdata. apply adjacent_snoc; [rewrite <- Hdata; exact Hadj |].
    unfold follows.
    cbn [Sample.vx Sample.vy Sample.vz Sample.x Sample.y Sample.z
         Sample.ax Sample.ay Sample.az Sample.speed Sample.accel].
    repeat split.
  - rewrite Hdata in Hhd |- *. destruct front; cbn in Hhd |- *; exact Hhd.
Qed.

Lemma realization_keeps (sqrt_dt omega2 plotTime : R) (k : nat) :
  exists data k',
    realization random fuel p dt sqrt_dt omega2 plotTime k = Some (data, k')
    /\ adjacent (follows dt) data
    /\ hd_error data = Some origin_sample.
Proof.
  unfold realization, bind. cbv zeta.
  destruct (foldM_invariant (step random fuel p dt sqrt_dt omega2 plotTime)
              (in_step dt) (seq 1 (steps plotTime dt))
              (step_keeps sqrt_dt omega2 plotTime))
    with (s := (mkWork [0; 0; 0] [0; 0; 0] [0; 0; 0] [0; 0; 0],
                [Sample.mk 0 (get [0; 0; 0] 0) (get [0; 0; 0] 1)
                   (get [0; 0; 0] 2) (get [0; 0; 0] 0) (get [0; 0; 0] 1)
                   (get [0; 0; 0] 2) 0 0 0 0 0])) (k := k)
    as [st [k' [Hrun [front [last [_ [_ [_ [Hadj Hhd]]]]]]]]].
  - exists [], origin_sample. cbn [fst snd].
    split; [reflexivity | split; [reflexivity | split; [reflexivity |]]].
    split; [| reflexivity].
    intros i a b Ha Hb. destruct i; cbn in Hb; [discriminate |].
    destruct i; discriminate.
  - rewrite Hrun. exists (snd st), k'.
    split; [reflexivity | split; assumption].
Qed.

End Kept.

(** Whatever the draws, every trajectory of the Langevin [simulate]
    starts with the sample at rest at the origin at [t = 0], and every
    sample follows the one before it: its position is the previous
    position plus its velocity times [dt], its acceleration is the change
    of velocity divided by [dt], and its speed and acceleration magnitude
    are the norms of the velocity and acceleration it carries. *)
Theorem langevin_samples_follow (p : langevin.Params) (dt : R)
  (nSamples : nat) (random : nat -> R) (fuel k : nat) :
  0 < dt ->
  fair random fuel ->
  exists trajectories k',
    langevin.simulate random fuel p dt nSamples k = Some (trajectories, k')
    /\ Forall (fun data => adjacent (follows dt) data
                           /\ hd_error data = Some origin_sample)
              trajectories.
Proof.
  intros _ Hfair. unfold langevin.simulate. cbv zeta.
  destruct (JS.leb (langevin.getPlotTime p) 0).
  - exists [], k. split; [reflexivity | constructor].
  - apply (foldM_invariant _
             (Forall (fun data => adjacent (follows dt) data
                                  /\ hd_error data = Some origin_sample)));
      [| constructor].
    intros _ s k0 Hs. unfold langevin.bind.
    destruct (realization_keeps random fuel Hfair p dt (sqrt dt)
                (langevin.omega p * langevin.omega p)
                (langevin.getPlotTime p) k0) as [data [k1 [-> [Hadj Hhd]]]].
    eexists _, _. split; [reflexivity |].
    apply Forall_app. split; [exact Hs |].
    constructor; [split; assumption | constructor].
Qed.

Lemma langevin_samples_follow_witness :
  0 < 2
  /\ fair every_other 2
  /\ exists trajectories k',
       langevin.simulate every_other 2%nat langevin.defaultParams 2 3%nat 0%nat
       = Some (trajectories, k')
       /\ Forall (fun data => adjacent (follows 2) data
                              /\ hd_error data = Some origin_sample)
                 trajectories.
Proof.
  assert (H2 : 0 < 2) by lra.
  split; [exact H2 | split; [exact every_other_fair |]].
  apply (langevin_samples_follow langevin.defaultParams 2 3%nat every_other
           2%nat 0%nat H2 every_other_fair).
Defined.

(** ** The Langevin model without noise *)

Lemma advance_resting (p : langevin.Params) (dt sqrt_dt omega2 : R)
  (dim : nat) :
  langevin.sigma p = 0 ->
  In dim [0; 1; 2]%nat ->
  langevin.advance p dt sqrt_dt omega2 dim resting 0 = resting.
Proof.
  intros Hs Hdim. unfold langevin.advance, resting. cbv zeta. rewrite Hs.
  destruct Hdim as [<- | [<- | [<- | []]]];
    cbn [langevin.pos langevin.vel langevin.pos_raw langevin.vel_raw
         langevin.set langevin.get nth];
    repeat f_equal; ring.
Qed.

Lemma dims_resting (p : langevin.Params) (dt sqrt_dt omega2 : R) :
  langevin.sigma p = 0 ->
  NoiseFree.dims p dt sqrt_dt omega2 resting = resting.
Proof.
  intros Hs. unfold NoiseFree.dims. cbn [fold_left].
  rewrite !advance_resting; try exact Hs; cbn; tauto.
Qed.

Lemma sample_of_resting (t dt : R) :
  at_rest (langevin.sample_of t dt [0; 0; 0] resting).
Proof.
  unfold langevin.sample_of, resting, at_rest. cbv zeta.
  cbn [langevin.pos langevin.vel langevin.get nth
       Sample.x Sample.y Sample.z Sample.vx Sample.vy Sample.vz
       Sample.speed Sample.accel].
  replace ((0 - 0) / dt) with 0 by (unfold Rdiv; ring).
  rewrite hypot_zero. repeat split.
Qed.

Lemma noise_free_run_rests (p : langevin.Params) (dt : R) :
  langevin.sigma p = 0 -> Forall at_rest (NoiseFree.run p dt).
Proof.
  intros Hs. unfold NoiseFree.run. cbv zeta.
  set (plotTime := langevin.getPlotTime p).
  set (omega2 := langevin.omega p * langevin.omega p).
  assert (Hinv : forall l st,
             fst st = resting -> Forall at_rest (snd st) ->
             Forall at_rest
               (snd (fold_left
                       (fun st i =>
                          NoiseFree.step p dt (sqrt dt) omega2 plotTime i st)
                       l st))).
  { induction l as [| i l IH]; intros st Hw Hdata; cbn [fold_left];
      [exact Hdata |].
    apply IH.
    - unfold NoiseFree.step. cbn [fst]. rewrite Hw. apply dims_resting, Hs.
    - unfold NoiseFree.step. cbn [snd]. apply Forall_app.
      split; [exact Hdata |]. rewrite Hw, dims_resting by exact Hs.
      constructor; [apply sample_of_resting | constructor]. }
  apply Hinv; [reflexivity |].
  constructor; [| constructor]. unfold at_rest. cbn. repeat split.
Qed.

(** With [sigma = 0] nothing ever moves: whatever the other parameters and
    the draws, every sample of every trajectory of the Langevin
    [simulate] is at the origin with zero velocity, speed and
    acceleration. *)
Theorem langevin_without_noise_rests (p : langevin.Params) (dt : R)
  (nSamples : nat) (random : nat -> R) (fuel k : nat) :
  langevin.sigma p = 0 ->
  0 < dt ->
  fair random fuel ->
  exists trajectories k',
    langevin.simulate random fuel p dt nSamples k = Some (trajectories, k')
    /\ Forall (Forall at_rest) trajectories.
Proof.
  intros Hs _ Hfair.
  destruct (Rlt_dec 0 (langevin.getPlotTime p)) as [Hp | Hp].
  - destruct (simulate_noise_free random fuel Hfair p dt Hs nSamples k Hp)
      as [k' Hrun].
    exists (repeat (NoiseFree.run p dt) nSamples), k'.
    split; [exact Hrun |].
    apply Forall_forall. intros data Hin. apply repeat_spec in Hin. subst data.
    apply noise_free_run_rests, Hs.
  - exists [], k. unfold langevin.simulate. cbv zeta.
    rewrite (proj2 (leb_true _ _)) by lra.
    split; [reflexivity | constructor].
Qed.

Lemma langevin_without_noise_rests_witness :
  let p := langevin.mkParams 0.5 1.0 0 0.1 20.0 in
  langevin.sigma p = 0
  /\ 0 < 2
  /\ fair every_other 2
  /\ exists trajectories k',
       langevin.simulate every_other 2%nat p 2 3%nat 0%nat
       = Some (trajectories, k')
       /\ Forall (Forall at_rest) trajectories.
Proof.
  assert (H2 : 0 < 2) by lra.
  split; [reflexivity | split; [exact H2 | split; [exact every_other_fair |]]].
  apply (langevin_without_noise_rests (langevin.mkParams 0.5 1.0 0 0.1 20.0)
           2 3%nat every_other 2%nat 0%nat eq_refl H2 every_other_fair).
Defined.

(** ** The earlier tuner *)

Lemma legacy_steps_bounds (plotTime : R) :
  (2000 <= Z.of_nat (legacy.steps plotTime) <= 12000)%Z.
Proof. unfold legacy.steps. rewrite Z2Nat.id; lia. Qed.

Lemma legacy_plotTime_positive (p : lissajous.Params) :
  lissajous.duration p > 0 -> 0 < legacy.plotTime p.
Proof.
  intros Hd. unfold legacy.plotTime.
  rewrite (proj2 (gtb_true _ _)) by exact Hd. cbn [negb].
  pose proof (Rmax_l 0 (lissajous.ramp_duration p)). lra.
Qed.

Lemma legacy_trajectory_times (p : lissajous.Params) :
  lissajous.duration p > 0 ->
  plot_times (legacy.trajectory p)
  = map (fun i : nat =>
           INR i / (INR (legacy.steps (legacy.plotTime p)) - 1)
           * legacy.plotTime p)
        (seq 0 (legacy.steps (legacy.plotTime p))).
Proof.
  intros Hd. pose proof (legacy_plotTime_positive p Hd) as Hp.
  unfold plot_times, legacy.trajectory. cbv zeta.
  rewrite (proj2 (gtb_true _ _)) by exact Hd.
  rewrite (proj2 (leb_false _ _)) by exact Hp. cbn [negb orb].
  rewrite map_map. apply map_ext. intros i. reflexivity.
Qed.

(** For [duration > 0] the earlier tuner plots between 2000 and 12000
    points; their times do not decrease, the first is 0 and the last is
    the plotted horizon itself; and each point carries the position and
    speed that [lissajous.evaluate] gives at its time. *)
Theorem legacy_trajectory_spans (p : lissajous.Params) :
  lissajous.duration p > 0 ->
  (2000 <= Z.of_nat (List.length (legacy.trajectory p)) <= 12000)%Z
  /\ StronglySorted Rle (plot_times (legacy.trajectory p))
  /\ hd_error (plot_times (legacy.trajectory p)) = Some 0
  /\ ends_at (plot_times (legacy.trajectory p)) (legacy.plotTime p)
  /\ Forall (fun pt =>
               let s := lissajous.evaluate (legacy.PlotPoint.t pt) p in
               legacy.PlotPoint.x pt = State.x s
               /\ legacy.PlotPoint.y pt = State.y s
               /\ legacy.PlotPoint.speed pt = State.speed s)
            (legacy.trajectory p).
Proof.
  intros Hd. pose proof (legacy_plotTime_positive p Hd) as Hp.
  pose proof (legacy_steps_bounds (legacy.plotTime p)) as Hsteps.
  pose proof (legacy_trajectory_times p Hd) as Htimes.
  set (n := legacy.steps (legacy.plotTime p)) in *.
  assert (Hn : 0 < INR n - 1).
  { assert (H2 : IZR 2000 <= IZR (Z.of_nat n)) by (apply IZR_le; lia).
    rewrite <- INR_IZR_INZ in H2. lra. }
  split.
  { replace (List.length (legacy.trajectory p))
      with (List.length (plot_times (legacy.trajectory p)))
      by (unfold plot_times; apply length_map).
    rewrite Htimes, length_map, length_seq. exact Hsteps. }
  split.
  { rewrite Htimes. apply map_seq_sorted. intros i j Hij.
    apply Rmult_le_compat_r; [lra |].
    apply Rmult_le_compat_r; [left; apply Rinv_0_lt_compat; exact Hn |].
    apply le_INR, Hij. }
  split.
  { rewrite Htimes. destruct n as [| n']; [lia |].
    cbn [seq map hd_error INR]. f_equal. unfold Rdiv. ring. }
  split.
  { rewrite Htimes. destruct n as [| n']; [lia |].
    rewrite seq_S, map_app. cbn [map Nat.add].
    eexists. f_equal. f_equal.
    rewrite S_INR. field. rewrite S_INR in Hn. lra. }
  unfold legacy.trajectory. cbv zeta.
  rewrite (proj2 (gtb_true _ _)) by exact Hd.
  rewrite (proj2 (leb_false _ _)) by exact Hp. cbn [negb orb].
  apply Forall_forall. intros pt Hin.
  apply in_map_iff in Hin. destruct Hin as [i [<- _]].
  cbn [legacy.PlotPoint.t legacy.PlotPoint.x legacy.PlotPoint.y
       legacy.PlotPoint.speed].
  repeat split.
Qed.

Lemma legacy_trajectory_spans_witness :
  lissajous.duration lissajous.defaultParams > 0
  /\ ends_at (plot_times (legacy.trajectory lissajous.defaultParams))
       (legacy.plotTime lissajous.defaultParams).
Proof.
  assert (H : lissajous.duration lissajous.defaultParams > 0) by (cbn; lra).
  split; [exact H |].
  apply (legacy_trajectory_spans lissajous.defaultParams H).
Defined.

(** ** The Langevin model: the shape of a batch *)

(** With [duration <= 0] the Langevin [simulate] returns no trajectory
    and reads no draw; with [duration > 0] it returns [nSamples]
    trajectories of [steps + 1] samples each, so the batch is aligned
    index by index. *)
Theorem langevin_simulate_shape (p : langevin.Params) (dt : R)
  (nSamples : nat) (random : nat -> R) (fuel k : nat) :
  0 < dt ->
  fair random fuel ->
  (langevin.duration p <= 0 ->
   langevin.simulate random fuel p dt nSamples k = Some ([], k))
  /\ (0 < langevin.duration p ->
      exists trajectories k',
        langevin.simulate random fuel p dt nSamples k
        = Some (trajectories, k')
        /\ List.length trajectories = nSamples
        /\ Forall (fun data =>
                     List.length data
                     = S (langevin.steps (langevin.duration p) dt))
                  trajectories).
Proof.
  intros _ Hfair. split.
  - intros Hd. unfold langevin.simulate, langevin.getPlotTime. cbv zeta.
    rewrite (proj2 (gtb_false _ _)) by exact Hd.
    rewrite (proj2 (leb_true 0 0)) by lra. reflexivity.
  - intros Hd.
    assert (Hplot : langevin.getPlotTime p = langevin.duration p).
    { unfold langevin.getPlotTime.
      rewrite (proj2 (gtb_true _ _)) by exact Hd. reflexivity. }
    destruct (simulate_times random fuel Hfair p dt nSamples k)
      as [trajectories [k' [Hrun [Hlen Hall]]]]; [rewrite Hplot; exact Hd |].
    exists trajectories, k'. split; [exact Hrun | split; [exact Hlen |]].
    eapply Forall_impl; [| exact Hall]. cbv beta. intros data Hdata.
    rewrite Hplot in Hdata.
    replace (List.length data) with (List.length (times data))
      by (unfold times; apply length_map).
    rewrite Hdata. unfold grid. rewrite length_map, length_seq. reflexivity.
Qed.

Lemma langevin_simulate_shape_witness :
  0 < 2
  /\ fair every_other 2
  /\ 0 < langevin.duration langevin.defaultParams
  /\ exists trajectories k',
       langevin.simulate every_other 2%nat langevin.defaultParams 2 3%nat 0%nat
       = Some (trajectories, k')
       /\ List.length trajectories = 3%nat.
Proof.
  assert (H2 : 0 < 2) by lra.
  assert (Hd : 0 < langevin.duration langevin.defaultParams) by (cbn; lra).
  split; [exact H2 | split; [exact every_other_fair | split; [exact Hd |]]].
  destruct (langevin_simulate_shape langevin.defaultParams 2 3%nat
              every_other 2%nat 0%nat H2 every_other_fair) as [_ Hpos].
  destruct (Hpos Hd) as [trajectories [k' [Hrun [Hlen _]]]].
  exists trajectories, k'. split; [exact Hrun | exact Hlen].
Defined.

(** ** The 3D view: how far the curve reaches *)

Lemma farther_distance (m : R) (p : Sample.Sample) :
  m <= Scene.farther m p /\ distance p <= Scene.farther m p
  /\ (Scene.farther m p = m \/ Scene.farther m p = distance p).
Proof.
  assert (Hd : sqrt (Sample.x p * Sample.x p + Sample.y p * Sample.y p
                     + Scene.z_or_0 (Sample.z p) * Scene.z_or_0 (Sample.z p))
               = distance p).
  { unfold distance, norm3, Scene.z_or_0. f_equal.
    destruct (JS.eqb (Sample.z p) 0) eqn:Hz.
    - apply eqb_true in Hz. rewrite Hz. ring.
    - ring. }
  unfold Scene.farther. cbv zeta. rewrite Hd.
  destruct (JS.gtb (distance p) m) eqn:Hg.
  - apply gtb_true in Hg. split; [lra | split; [lra | right; reflexivity]].
  - apply gtb_false in Hg. split; [lra | split; [lra | left; reflexivity]].
Qed.

Lemma farthest_in_trajectory (traj : list Sample.Sample) (m : R) :
  m <= fold_left Scene.farther traj m
  /\ forall q, In q traj -> distance q <= fold_left Scene.farther traj m.
Proof.
  revert m. induction traj as [| p traj IH]; intros m; cbn [fold_left].
  - split; [lra | intros q []].
  - destruct (IH (Scene.farther m p)) as [Hm Hall].
    destruct (farther_distance m p) as [H1 [H2 _]].
    split; [lra |]. intros q [<- | Hq]; [lra | apply Hall, Hq].
Qed.

Lemma farthest_in_batch (batch : list (list Sample.Sample)) (m : R) :
  m <= fold_left (fun maxDist traj => fold_left Scene.farther traj maxDist)
         batch m
  /\ forall traj q, In traj batch -> In q traj ->
       distance q
       <= fold_left (fun maxDist traj => fold_left Scene.farther traj maxDist)
            batch m.
Proof.
  revert m. induction batch as [| traj batch IH]; intros m; cbn [fold_left].
  - split; [lra | intros traj q []].
  - destruct (IH (fold_left Scene.farther traj m)) as [Hm Hall].
    destruct (farthest_in_trajectory traj m) as [H1 H2].
    split; [lra |]. intros traj' q [<- | Ht] Hq.
    + specialize (H2 q Hq). lra.
    + apply (Hall traj' q Ht Hq).
Qed.

(** [bounds] of the 3D view is at least 1 and at least the distance from
    the origin of every sample of every trajectory. *)
Theorem scene_bounds_reach (batch : list (list Sample.Sample)) :
  1 <= Scene.bounds batch
  /\ forall traj q, In traj batch -> In q traj ->
       distance q <= Scene.bounds batch.
Proof.
  unfold Scene.bounds.
  destruct (farthest_in_batch batch 1) as [Hone Hall].
  split; [exact Hone |].
  intros traj q Ht Hq. apply (Hall traj q Ht Hq).
Qed.
